(** * cuOpt benchmark client: a shallow embedding and its properties

    The development follows [benchmarks/benchmark_client.py] (class
    [CuOptClient]), [use-cases/ev-fleet/example.py]
    ([generate_ev_fleet_problem]) and, for the layout of one chart,
    [benchmarks/generate_charts.py] ([create_use_case_comparison]).

    Python values are embedded as a small JSON-like datatype; the
    process-wide generator of the [random] module, the wall clock, the
    HTTP session and standard output make up an explicit world that is
    threaded through a state-and-exception monad.  Clock readings (Python
    floats) are embedded as rationals: rounding is not part of the
    model. *)

From Stdlib Require Import ZArith QArith List String Bool Lia Lqa.
From Stdlib Require Import DecimalString DecimalNat.
Import ListNotations.

Set Warnings "-register-all".
Local Open Scope string_scope.
Local Open Scope Z_scope.

(* ===================================================================== *)
(** ** Python values *)
(* ===================================================================== *)

(** [None], [bool], [int], [float], [str], [list] and [dict] with string
    keys.  A [dict] keeps its insertion order, so it is an association
    list. *)
Inductive json : Type :=
| JNull
| JBool (b : bool)
| JInt (z : Z)
| JFloat (q : Q)
| JStr (s : string)
| JArr (l : list json)
| JObj (kv : list (string * json)).

Definition dict := list (string * json).

(** Exceptions of the Python run time that the client can meet.
    [JSONDecodeError] is what [response.json()] raises on a body that is
    not JSON; [NetworkError] stands for the exceptions of [requests]
    (connection refused, timeout exceeded).  [OverflowError] is what the
    division of an int raises when the quotient is too large for a
    float; only the charts divide. *)
Inductive exn : Type :=
| TypeError
| KeyError
| AttributeError
| JSONDecodeError
| NetworkError (reason : string)
| OverflowError.

Inductive outcome (A : Type) : Type :=
| Ok (a : A)
| Raise (e : exn).
Arguments Ok {A} a.
Arguments Raise {A} e.

Module Dict.

(** [d.get(k)] *)
Fixpoint get (k : string) (d : dict) : option json :=
  match d with
  | [] => None
  | (k', v) :: rest => if String.eqb k k' then Some v else get k rest
  end.

(** [d.get(k, default)] *)
Definition get_default (k : string) (default : json) (d : dict) : json :=
  match get k d with
  | Some v => v
  | None => default
  end.

(** [k in d] *)
Definition mem (k : string) (d : dict) : bool :=
  match get k d with
  | Some _ => true
  | None => false
  end.

(** [d[k] = v]: an existing key keeps its place, a new one goes last. *)
Fixpoint set (k : string) (v : json) (d : dict) : dict :=
  match d with
  | [] => [(k, v)]
  | (k', v') :: rest =>
      if String.eqb k k' then (k, v) :: rest else (k', v') :: set k v rest
  end.

(** The entries whose key is not in [ks]. *)
Definition without (ks : list string) (d : dict) : dict :=
  filter (fun p => negb (existsb (String.eqb (fst p)) ks)) d.

Definition keys (d : dict) : list string := map fst d.

End Dict.

(** [operator.index]: what [range] and [list * n] accept. *)
Definition as_index (v : json) : outcome Z :=
  match v with
  | JInt z => Ok z
  | JBool b => Ok (Z.b2z b)
  | _ => Raise TypeError
  end.

(** [x + 120] for the integer literal 120. *)
Definition py_add_int (v : json) (k : Z) : outcome json :=
  match v with
  | JInt z => Ok (JInt (z + k))
  | JBool b => Ok (JInt (Z.b2z b + k))
  | JFloat q => Ok (JFloat (q + inject_Z k))
  | _ => Raise TypeError
  end.

(** [int(x)] on a float truncates towards zero. *)
Definition py_int (q : Q) : Z := Z.quot (Qnum q) (Zpos (Qden q)).

(** [list(range(lo, lo + n))] *)
Fixpoint zrange (lo : Z) (n : nat) : list Z :=
  match n with
  | O => []
  | S n' => lo :: zrange (lo + 1) n'
  end.

(* ===================================================================== *)
(** ** The [random] module *)
(* ===================================================================== *)

(** The generator behind [random.seed] and [random.randint].  The only
    law used is the documented one: [randint(a, b)] returns [N] with
    [a <= N <= b]. *)
Class PRNG : Type := {
  rng_state : Type;
  rng_seed : Z -> rng_state;
  rng_randint : Z -> Z -> rng_state -> Z * rng_state;
  rng_randint_range :
    forall lo hi s, lo <= hi ->
      lo <= fst (rng_randint lo hi s) <= hi
}.

(* ===================================================================== *)
(** ** The world and the monad *)
(* ===================================================================== *)

(** What a POST can do: raise (transport failure), or answer with a
    status code and a body that decodes as JSON or does not. *)
Inductive post_outcome : Type :=
| PostRaises (e : exn)
| PostResponds (status_code : Z) (body : option json).

(** The surroundings of a run.  [clock k] is the [k]-th reading of
    [time.time()]; [service k payload timeout] is the answer to the
    [k]-th POST; [now_iso] is [datetime.now().isoformat()]. *)
Record Env : Type := mkEnv {
  clock : nat -> Q;
  service : nat -> json -> json -> post_outcome;
  now_iso : string;
  endpoint : string
}.

(** Lines written by [print], kept structured. *)
Inductive event : Type :=
| PrintRunning (name : json)
| PrintConfig (num_vehicles num_locations : json)
| PrintIteration (i : Z) (total : Z) (response_time : json).

Section Client.

Context {R : PRNG}.
Variable env : Env.

Record World : Type := mkWorld {
  rng : rng_state;              (* state of the module-level generator *)
  ticks : nat;                  (* readings of the clock so far *)
  requests : list (json * json);  (* POSTs so far: payload, timeout *)
  stdout : list event
}.

Definition M (A : Type) : Type := World -> outcome A * World.

Definition ret {A} (a : A) : M A := fun w => (Ok a, w).

Definition raise {A} (e : exn) : M A := fun w => (Raise e, w).

Definition bind {A B} (m : M A) (f : A -> M B) : M B :=
  fun w =>
    match m w with
    | (Ok a, w') => f a w'
    | (Raise e, w') => (Raise e, w')
    end.

Definition lift {A} (o : outcome A) : M A := fun w => (o, w).

End Client.

Arguments ret {R A} a.
Arguments raise {R A} e.
Arguments bind {R A B} m f.
Arguments lift {R A} o.

Declare Scope py_scope.
Delimit Scope py_scope with py.
Notation "x <- m ;; k" := (bind m (fun x => k))
  (at level 61, m at next level, right associativity) : py_scope.
Notation "m ;;; k" := (bind m (fun _ => k))
  (at level 61, right associativity) : py_scope.
Local Open Scope py_scope.

Section Primitives.

Context {R : PRNG}.
Variable env : Env.

(** [time.time()] *)
Definition time : M Q :=
  fun w =>
    (Ok (clock env (ticks w)),
     mkWorld (rng w) (S (ticks w)) (requests w) (stdout w)).

(** [random.seed(a)] *)
Definition seed (a : Z) : M unit :=
  fun w => (Ok tt, mkWorld (rng_seed a) (ticks w) (requests w) (stdout w)).

(** [random.randint(lo, hi)] *)
Definition randint (lo hi : Z) : M Z :=
  fun w =>
    let (v, s) := rng_randint lo hi (rng w) in
    (Ok v, mkWorld s (ticks w) (requests w) (stdout w)).

(** [print(...)] *)
Definition print (e : event) : M unit :=
  fun w =>
    (Ok tt, mkWorld (rng w) (ticks w) (requests w) (stdout w ++ [e])).

(** [session.post(url, json=payload, timeout=timeout)] *)
Definition post (payload timeout : json) : M (Z * option json) :=
  fun w =>
    let w' := mkWorld (rng w) (ticks w)
                      (requests w ++ [(payload, timeout)]) (stdout w) in
    match service env (List.length (requests w)) payload timeout with
    | PostRaises e => (Raise e, w')
    | PostResponds code body => (Ok (code, body), w')
    end.

(** The body of a [for] loop run for [i = lo, lo+1, ...], [n] times,
    the values it appends collected in order. *)
Fixpoint collect {A} (n : nat) (lo : Z) (body : Z -> M A) : M (list A) :=
  match n with
  | O => ret []
  | S n' =>
      x <- body lo ;;
      xs <- collect n' (lo + 1) body ;;
      ret (x :: xs)
  end.

(** [for _ in range(v)] with [v] a Python value. *)
Definition for_range {A} (v : json) (body : Z -> M A) : M (list A) :=
  n <- lift (as_index v) ;;
  collect (Z.to_nat n) 0 body.

(* ------------------------------------------------------------------- *)
(** *** [CuOptClient.generate_cost_matrix] *)

(** [if seed: random.seed(seed)
     else: random.seed(int(time.time() * 1000) % 2**32)] *)
Definition seed_generator (seed_arg : option Z) : M unit :=
  match seed_arg with
  | Some s =>
      if Z.eqb s 0
      then (t <- time ;; seed (py_int (t * 1000) mod 2 ^ 32))
      else seed s
  | None => t <- time ;; seed (py_int (t * 1000) mod 2 ^ 32)
  end.

Definition cost_row (lo hi : Z) (num_locations : json) (i : Z) : M (list Z) :=
  for_range num_locations
    (fun j => if Z.eqb i j then ret 0 else randint lo hi).

Definition generate_cost_matrix (num_locations : json) (seed_arg : option Z)
  : M (list (list Z)) :=
  seed_generator seed_arg ;;;
  for_range num_locations (cost_row 5 100 num_locations).

End Primitives.

(* ===================================================================== *)
(** ** The client *)
(* ===================================================================== *)

(** [x - 1] for the integer literal 1. *)
Definition py_sub_int (v : json) (k : Z) : outcome json :=
  match v with
  | JInt z => Ok (JInt (z - k))
  | JBool b => Ok (JInt (Z.b2z b - k))
  | JFloat q => Ok (JFloat (q - inject_Z k))
  | _ => Raise TypeError
  end.

(** [v[k]] for a string [k]. *)
Definition getitem (v : json) (k : string) : outcome json :=
  match v with
  | JObj d =>
      match Dict.get k d with
      | Some x => Ok x
      | None => Raise KeyError
      end
  | _ => Raise TypeError
  end.

(** [target[k] = v] for a string [k]: only a [dict] takes it. *)
Definition setitem (k : string) (v : json) (target : json) : outcome dict :=
  match target with
  | JObj d => Ok (Dict.set k v d)
  | _ => Raise TypeError
  end.

Definition jints (l : list Z) : json := JArr (map JInt l).

Definition jmatrix (m : list (list Z)) : json := JArr (map jints m).

(** One record of a scenario's [results] list. *)
Record iteration_record : Type := mkRecord {
  iteration : Z;
  response_time : json;
  success : bool
}.

(** The value stored under a scenario's name. *)
Record scenario_entry : Type := mkEntry {
  config : dict;
  results : list iteration_record
}.

(** Keys of [results["scenarios"]].  A [list] or a [dict] is not
    hashable; numbers are equal as keys when they are equal as numbers. *)
Definition hashable (k : json) : bool :=
  match k with
  | JArr _ | JObj _ => false
  | _ => true
  end.

Definition as_number (k : json) : option Q :=
  match k with
  | JBool b => Some (inject_Z (Z.b2z b))
  | JInt z => Some (inject_Z z)
  | JFloat q => Some q
  | _ => None
  end.

Definition key_eqb (a b : json) : bool :=
  match a, b with
  | JNull, JNull => true
  | JStr s, JStr t => String.eqb s t
  | _, _ =>
      match as_number a, as_number b with
      | Some x, Some y => Qeq_bool x y
      | _, _ => false
      end
  end.

Definition scenario_map := list (json * scenario_entry).

Fixpoint scenarios_set (k : json) (v : scenario_entry) (m : scenario_map)
  : scenario_map :=
  match m with
  | [] => [(k, v)]
  | (k', v') :: rest =>
      if key_eqb k k' then (k', v) :: rest
      else (k', v') :: scenarios_set k v rest
  end.

(** The dictionary [run_benchmark] returns. *)
Record report : Type := mkReport {
  timestamp : string;
  report_endpoint : string;
  scenarios : scenario_map
}.

Definition string_of_nat (n : nat) : string :=
  NilEmpty.string_of_uint (Nat.to_uint n).

Section CuOptClient.

Context {R : PRNG}.
Variable env : Env.

(* ------------------------------------------------------------------- *)
(** *** [CuOptClient.build_vrp_payload]

    The arguments are Python values: the annotations of the source are
    not enforced, and [None] ([JNull]) for an override asks for the
    default. *)

Definition build_vrp_payload
           (num_vehicles num_locations vehicle_capacity time_limit
            time_windows demands service_times : json) : M json :=
  cost_matrix <- generate_cost_matrix env num_locations None ;;
  num_tasks <- lift (py_sub_int num_locations 1) ;;
  demands <-
    match demands with
    | JNull =>
        ds <- for_range num_tasks (fun _ => randint 5 20) ;; ret (jints ds)
    | _ => ret demands
    end ;;
  service_times <-
    match service_times with
    | JNull =>
        ss <- for_range num_tasks (fun _ => randint 5 15) ;; ret (jints ss)
    | _ => ret service_times
    end ;;
  time_windows <-
    match time_windows with
    | JNull =>
        ws <- for_range num_tasks (fun _ => ret (jints [0; 480])) ;;
        ret (JArr ws)
    | _ => ret time_windows
    end ;;
  vehicle_locations <-
    for_range num_vehicles (fun _ => ret (jints [0; 0])) ;;
  nv <- lift (as_index num_vehicles) ;;
  vehicle_time_windows <-
    for_range num_vehicles (fun _ => ret (jints [0; 480])) ;;
  nl <- lift (as_index num_locations) ;;
  ret (JObj
    [ ("cost_matrix_data",
        JObj [("data", JObj [("0", jmatrix cost_matrix)])]);
      ("fleet_data",
        JObj [ ("vehicle_locations", JArr vehicle_locations);
               ("capacities",
                 JArr [JArr (repeat vehicle_capacity (Z.to_nat nv))]);
               ("vehicle_time_windows", JArr vehicle_time_windows) ]);
      ("task_data",
        JObj [ ("task_locations", jints (zrange 1 (Z.to_nat (nl - 1))));
               ("demand", JArr [demands]);
               ("task_time_windows", time_windows);
               ("service_times", service_times) ]);
      ("solver_config", JObj [("time_limit", time_limit)]) ]).

(* ------------------------------------------------------------------- *)
(** *** [CuOptClient.optimize] *)

(** [if timeout is None:
       timeout = payload.get("solver_config", {}).get("time_limit", 30) + 120] *)
Definition effective_timeout (payload timeout : json) : outcome json :=
  match timeout with
  | JNull =>
      match payload with
      | JObj d =>
          match Dict.get_default "solver_config" (JObj []) d with
          | JObj sc =>
              py_add_int (Dict.get_default "time_limit" (JInt 30) sc) 120
          | _ => Raise AttributeError
          end
      | _ => Raise AttributeError
      end
  | _ => Ok timeout
  end.

Definition metadata (elapsed : Q) (status_code : Z) : json :=
  JObj [ ("response_time_seconds", JFloat elapsed);
         ("status_code", JInt status_code) ].

Definition optimize (payload timeout : json) : M dict :=
  timeout <- lift (effective_timeout payload timeout) ;;
  start <- time env ;;
  response <- post env payload timeout ;;
  stop <- time env ;;
  let elapsed := (stop - start)%Q in
  result <-
    match snd response with
    | Some body => ret body
    | None => raise JSONDecodeError
    end ;;
  lift (setitem "_metadata" (metadata elapsed (fst response)) result).

(* ------------------------------------------------------------------- *)
(** *** [CuOptClient.optimize_fleet], called with keywords only *)

Definition build_vrp_payload_parameters : list string :=
  [ "num_vehicles"; "num_locations"; "vehicle_capacity"; "time_limit";
    "time_windows"; "demands"; "service_times" ].

Definition optimize_fleet_parameters : list string :=
  [ "num_vehicles"; "num_locations"; "vehicle_capacity"; "time_limit" ].

Definition is_in (ks : list string) (k : string) : bool :=
  existsb (String.eqb k) ks.

(** [self.build_vrp_payload(num_vehicles=..., num_locations=...,
     vehicle_capacity=..., time_limit=..., **kwargs)]: a keyword that is
    no parameter of [build_vrp_payload] is a [TypeError], raised before
    the body runs. *)
Definition call_build_vrp_payload
           (num_vehicles num_locations vehicle_capacity time_limit : json)
           (kwargs : dict) : M json :=
  if forallb (is_in build_vrp_payload_parameters) (Dict.keys kwargs)
  then
    build_vrp_payload num_vehicles num_locations vehicle_capacity time_limit
      (Dict.get_default "time_windows" JNull kwargs)
      (Dict.get_default "demands" JNull kwargs)
      (Dict.get_default "service_times" JNull kwargs)
  else raise TypeError.

(** [self.optimize_fleet] applied to the keywords [kw] (a double-star
    call): the two required parameters must be
    among the keywords; what is no named parameter goes to [kwargs]. *)
Definition optimize_fleet (kw : dict) : M dict :=
  match Dict.get "num_vehicles" kw, Dict.get "num_locations" kw with
  | Some num_vehicles, Some num_locations =>
      let vehicle_capacity :=
        Dict.get_default "vehicle_capacity" (JInt 100) kw in
      let time_limit := Dict.get_default "time_limit" (JInt 30) kw in
      let kwargs := Dict.without optimize_fleet_parameters kw in
      payload <-
        call_build_vrp_payload num_vehicles num_locations vehicle_capacity
          time_limit kwargs ;;
      optimize payload JNull
  | _, _ => raise TypeError
  end.

(* ------------------------------------------------------------------- *)
(** *** [CuOptClient.run_benchmark] *)

(** The body of the inner loop, for [i] of [range(iterations_per_scenario)]. *)
Definition run_iteration (scenario : dict) (iterations_per_scenario : Z)
           (i : Z) : M iteration_record :=
  result <- optimize_fleet scenario ;;
  meta <- lift (getitem (JObj result) "_metadata") ;;
  rt <- lift (getitem meta "response_time_seconds") ;;
  let record :=
    mkRecord (i + 1) rt (Dict.mem "response" result) in
  print (PrintIteration (i + 1) iterations_per_scenario rt) ;;;
  ret record.

(** [results["scenarios"][name] = ...] *)
Definition store_scenario (name : json) (e : scenario_entry)
           (m : scenario_map) : outcome scenario_map :=
  if hashable name then Ok (scenarios_set name e m) else Raise TypeError.

(** The body of the outer loop on one scenario. *)
Definition run_scenario (iterations_per_scenario : Z) (scenario : dict)
           (acc : scenario_map) : M scenario_map :=
  let name :=
    Dict.get_default "name"
      (JStr ("scenario_" ++ string_of_nat (List.length acc))) scenario in
  print (PrintRunning name) ;;;
  nv <- lift (getitem (JObj scenario) "num_vehicles") ;;
  nl <- lift (getitem (JObj scenario) "num_locations") ;;
  print (PrintConfig nv nl) ;;;
  scenario_results <-
    collect (Z.to_nat iterations_per_scenario) 0
      (run_iteration scenario iterations_per_scenario) ;;
  lift (store_scenario name (mkEntry scenario scenario_results) acc).

Fixpoint run_scenarios (iterations_per_scenario : Z)
         (scenarios : list dict) (acc : scenario_map) : M scenario_map :=
  match scenarios with
  | [] => ret acc
  | scenario :: rest =>
      acc' <- run_scenario iterations_per_scenario scenario acc ;;
      run_scenarios iterations_per_scenario rest acc'
  end.

Definition run_benchmark (scenarios : list dict)
           (iterations_per_scenario : Z) : M report :=
  m <- run_scenarios iterations_per_scenario scenarios [] ;;
  ret (mkReport (now_iso env) (endpoint env) m).

End CuOptClient.

(* ===================================================================== *)
(** ** [use-cases/ev-fleet/example.py] *)
(* ===================================================================== *)

Module EvFleet.
Section Generator.

Context {R : PRNG}.
Variable env : Env.

(** The body of the loop that fills [time_windows]. *)
Definition time_window (_ : Z) : M json :=
  start <- randint 480 900 ;;
  length <- randint 60 180 ;;
  let stop := start + length in
  ret (jints [start; Z.min stop 1080]).

Definition generate_ev_fleet_problem
           (num_vehicles num_deliveries num_charging_stations
            battery_capacity avg_distance_per_delivery : Z) : M json :=
  t <- time env ;;
  seed (py_int (t * 1000) mod 2 ^ 32) ;;;
  let total_locations := 1 + num_deliveries + num_charging_stations in
  let num_tasks := num_deliveries in
  cost_matrix <-
    collect (Z.to_nat total_locations) 0
      (fun i =>
         collect (Z.to_nat total_locations) 0
           (fun j => if Z.eqb i j then ret 0 else randint 3 15)) ;;
  demands <- collect (Z.to_nat num_tasks) 0 (fun _ => randint 1 10) ;;
  service_times <- collect (Z.to_nat num_tasks) 0 (fun _ => randint 5 15) ;;
  time_windows <- collect (Z.to_nat num_tasks) 0 time_window ;;
  ret (JObj
    [ ("cost_matrix_data",
        JObj [("data", JObj [("0", jmatrix cost_matrix)])]);
      ("fleet_data",
        JObj [ ("vehicle_locations",
                 JArr (repeat (jints [0; 0]) (Z.to_nat num_vehicles)));
               ("capacities",
                 JArr [JArr (repeat (JInt 50) (Z.to_nat num_vehicles))]);
               ("vehicle_time_windows",
                 JArr (repeat (jints [480; 1080])
                              (Z.to_nat num_vehicles))) ]);
      ("task_data",
        JObj [ ("task_locations",
                 jints (zrange 1 (Z.to_nat (num_tasks + 1 - 1))));
               ("demand", JArr [jints demands]);
               ("task_time_windows", JArr time_windows);
               ("service_times", jints service_times) ]);
      ("solver_config", JObj [("time_limit", JInt 30)]) ]).

End Generator.
End EvFleet.

(* ===================================================================== *)
(** ** Reading a payload *)
(* ===================================================================== *)

(** [payload[section][field]], [None] when a step is missing. *)
Definition field (section name : string) (payload : json) : option json :=
  match payload with
  | JObj d =>
      match Dict.get section d with
      | Some (JObj s) => Dict.get name s
      | _ => None
      end
  | _ => None
  end.

(** [len(v)] of a list. *)
Definition jlen (v : json) : option Z :=
  match v with
  | JArr l => Some (Z.of_nat (List.length l))
  | _ => None
  end.

(** A time window [[start, end]] as a pair. *)
Definition as_window (v : json) : option (Z * Z) :=
  match v with
  | JArr [JInt a; JInt b] => Some (a, b)
  | _ => None
  end.

(* ===================================================================== *)
(** ** A generator and services to run the model on *)
(* ===================================================================== *)

Module Lcg.

Definition next (s : Z) : Z := (s * 1103515245 + 12345) mod 2 ^ 31.

Definition draw (lo hi : Z) (s : Z) : Z * Z :=
  (lo + next s mod (hi - lo + 1), next s).

Lemma draw_range lo hi s : lo <= hi -> lo <= fst (draw lo hi s) <= hi.
Proof.
  intros Hle. unfold draw. cbn [fst].
  pose proof (Z.mod_pos_bound (next s) (hi - lo + 1)). lia.
Qed.

(** A linear congruential generator: seeding stores the seed, a draw
    steps the state and reduces it into the asked range. *)
#[export] Instance prng : PRNG := {|
  rng_state := Z;
  rng_seed := fun a => a;
  rng_randint := draw;
  rng_randint_range := draw_range
|}.

End Lcg.

Module Mock.

(** The clock reads [k] seconds at its [k]-th reading. *)
Definition seconds (k : nat) : Q := inject_Z (Z.of_nat k).

(** A service that answers every POST with the same status and body. *)
Definition constant (status_code : Z) (body : json) : Env :=
  mkEnv seconds (fun _ _ _ => PostResponds status_code (Some body))
        "2024-01-01T00:00:00" "http://cuopt-service:8000".

(** The same service with a clock that reads [t] milliseconds, always. *)
Definition frozen (t : Z) : Env :=
  mkEnv (fun _ => (t # 1000)%Q)
        (fun _ _ _ => PostResponds 200 (Some (JObj [])))
        "2024-01-01T00:00:00" "http://cuopt-service:8000".

(** A service whose [k]-th POST (from 0) times out, the others answer. *)
Definition failing_at (k : nat) (body : json) : Env :=
  mkEnv seconds
        (fun i _ _ =>
           if Nat.eqb i k then PostRaises (NetworkError "timeout")
           else PostResponds 200 (Some body))
        "2024-01-01T00:00:00" "http://cuopt-service:8000".

Definition solved : json :=
  JObj [("response",
          JObj [("solver_response",
                  JObj [("status", JInt 0); ("solution_cost", JInt 123)])])].

Definition bad_request : json := JObj [("error", JStr "bad request")].

(** A service that answers like [constant 200 solved], with a clock that
    is set back after its first reading: it reads [1], then [0]. *)
Definition set_back : Env :=
  mkEnv (fun k => if Nat.eqb k 0 then 1%Q else 0%Q)
        (fun _ _ _ => PostResponds 200 (Some solved))
        "2024-01-01T00:00:00" "http://cuopt-service:8000".

Definition world0 : @World Lcg.prng := mkWorld (R := Lcg.prng) 1 0 [] [].

Definition scenario (name : option string) (nv nl : Z) : dict :=
  (match name with
   | Some n => [("name", JStr n)]
   | None => []
   end ++ [("num_vehicles", JInt nv); ("num_locations", JInt nl)])%list.

End Mock.

(** Runs the left-hand side of an equation on the machine and puts the
    value in its place.  The type of the equation is left alone. *)
Ltac evaluate_lhs :=
  match goal with
  | |- ?l = _ => let v := eval vm_compute in l in change l with v
  end.

Ltac evaluate_sides :=
  match goal with
  | |- ?l = ?r =>
      let v := eval vm_compute in l in
      let u := eval vm_compute in r in
      change (v = u)
  end.

(* ===================================================================== *)
(** ** Reasoning about runs *)
(* ===================================================================== *)

Section Runs.

Context {R : PRNG}.

Lemma bind_ok {A B} (m : M A) (f : A -> M B) w a w1 :
  m w = (Ok a, w1) -> bind m f w = f a w1.
Proof. intros H. unfold bind. now rewrite H. Qed.

Lemma bind_raise {A B} (m : M A) (f : A -> M B) w e w1 :
  m w = (Raise e, w1) -> bind m f w = (Raise e, w1).
Proof. intros H. unfold bind. now rewrite H. Qed.

Lemma bind_ok_inv {A B} (m : M A) (f : A -> M B) w b w2 :
  bind m f w = (Ok b, w2) ->
  exists a w1, m w = (Ok a, w1) /\ f a w1 = (Ok b, w2).
Proof.
  unfold bind. destruct (m w) as [[a | e] w1]; intros H.
  - now exists a, w1.
  - discriminate.
Qed.

(** [returns m Q]: from every world, [m] returns normally and its
    value satisfies [Q]. *)
Definition returns {A} (m : M A) (Q : A -> Prop) : Prop :=
  forall w, exists a w', m w = (Ok a, w') /\ Q a.

Lemma returns_weaken {A} (m : M A) (P Q : A -> Prop) :
  returns m P -> (forall a, P a -> Q a) -> returns m Q.
Proof.
  intros Hm HPQ w. destruct (Hm w) as (a & w' & E & HP).
  exists a, w'. auto.
Qed.

Lemma returns_ret {A} (a : A) (Q : A -> Prop) : Q a -> returns (ret a) Q.
Proof. intros HQ w. now exists a, w. Qed.

Lemma returns_lift {A} (a : A) (Q : A -> Prop) :
  Q a -> returns (lift (Ok a)) Q.
Proof. intros HQ w. now exists a, w. Qed.

Lemma returns_bind {A B} (m : M A) (f : A -> M B) (P : A -> Prop)
      (Q : B -> Prop) :
  returns m P -> (forall a, P a -> returns (f a) Q) ->
  returns (bind m f) Q.
Proof.
  intros Hm Hf w. destruct (Hm w) as (a & w1 & E & HP).
  destruct (Hf a HP w1) as (b & w2 & E2 & HQ).
  exists b, w2. split; [| exact HQ].
  rewrite (bind_ok _ _ _ _ _ E). exact E2.
Qed.

Lemma returns_randint lo hi :
  lo <= hi -> returns (randint lo hi) (fun v => lo <= v <= hi).
Proof.
  intros Hle w. unfold randint.
  pose proof (rng_randint_range lo hi (rng w) Hle) as Hr.
  destruct (rng_randint lo hi (rng w)) as [v s]. cbn [fst] in Hr.
  eexists _, _. split; [reflexivity | exact Hr].
Qed.

Lemma returns_seed a : returns (seed a) (fun _ => True).
Proof. intros w. unfold seed. eexists _, _. split; [reflexivity | exact I]. Qed.

Lemma returns_print e : returns (print e) (fun _ => True).
Proof. intros w. unfold print. eexists _, _. split; [reflexivity | exact I]. Qed.

Lemma returns_time env : returns (time env) (fun _ => True).
Proof. intros w. unfold time. eexists _, _. split; [reflexivity | exact I]. Qed.

(** A loop whose body always returns, returns; it yields one value per
    round, the [k]-th one made by the body at index [lo + k]. *)
Lemma returns_collect {A} (body : Z -> M A) (Q : Z -> A -> Prop) :
  (forall i, returns (body i) (Q i)) ->
  forall n lo,
    returns (collect n lo body)
      (fun xs =>
         List.length xs = n /\
         forall k x, nth_error xs k = Some x -> Q (lo + Z.of_nat k) x).
Proof.
  intros Hbody. induction n as [| n IH]; intros lo.
  - apply returns_ret. split; [reflexivity |].
    intros [| k] x Hk; discriminate.
  - cbn [collect]. eapply returns_bind; [apply Hbody |].
    intros x Hx. eapply returns_bind; [apply (IH (lo + 1)) |].
    intros xs [Hlen Hnth]. apply returns_ret. split.
    + cbn [List.length]. now rewrite Hlen.
    + intros [| k] y Hk; cbn [nth_error] in Hk.
      * injection Hk as <-. now rewrite Z.add_0_r.
      * apply Hnth in Hk.
        replace (lo + Z.of_nat (S k)) with (lo + 1 + Z.of_nat k) by lia.
        exact Hk.
Qed.

Lemma returns_for_range {A} (n : Z) (body : Z -> M A) (Q : Z -> A -> Prop) :
  (forall i, returns (body i) (Q i)) ->
  returns (for_range (JInt n) body)
    (fun xs =>
       List.length xs = Z.to_nat n /\
       forall k x, nth_error xs k = Some x -> Q (Z.of_nat k) x).
Proof.
  intros Hbody. unfold for_range. cbn [as_index].
  apply (returns_bind _ _ (fun a => a = n)); [now apply returns_lift |].
  intros ? ->. eapply returns_weaken; [apply returns_collect, Hbody |].
  intros xs [Hlen Hnth]. split; [exact Hlen |].
  intros k x Hk. apply Hnth in Hk. exact Hk.
Qed.

Lemma returns_seed_generator env seed_arg :
  returns (seed_generator env seed_arg) (fun _ => True).
Proof.
  unfold seed_generator.
  assert (Hclock :
    returns (t <- time env ;; seed (py_int (t * 1000) mod 2 ^ 32))
            (fun _ => True)).
  { eapply returns_bind; [apply returns_time |].
    intros t _. apply returns_seed. }
  destruct seed_arg as [s |]; [| exact Hclock].
  destruct (Z.eqb s 0); [exact Hclock | apply returns_seed].
Qed.

(** What a row of the cost matrix looks like. *)
Definition cost_row_ok (lo hi : Z) (n : Z) (i : Z) (row : list Z) : Prop :=
  Z.of_nat (List.length row) = n /\
  forall j x, nth_error row j = Some x ->
    if Z.eqb i (Z.of_nat j) then x = 0 else lo <= x <= hi.

Lemma returns_cost_row lo hi n i :
  lo <= hi -> 0 <= n ->
  returns (cost_row lo hi (JInt n) i) (cost_row_ok lo hi n i).
Proof.
  intros Hle Hn. unfold cost_row.
  eapply returns_weaken.
  - apply (returns_for_range n _
             (fun j x => if Z.eqb i j then x = 0 else lo <= x <= hi)).
    intros j. destruct (Z.eqb i j).
    + now apply returns_ret.
    + now apply returns_randint.
  - intros row [Hlen Hnth]. split; [rewrite Hlen; lia | exact Hnth].
Qed.

End Runs.

(* ===================================================================== *)
(** ** The cost matrix *)
(* ===================================================================== *)

Section CostMatrix.

Context {R : PRNG}.

(** [rng_only m]: what [m] returns, and the generator it leaves,
    depend on the world through the generator alone. *)
Definition rng_only {A} (m : M A) : Prop :=
  forall w1 w2, rng w1 = rng w2 ->
    fst (m w1) = fst (m w2) /\ rng (snd (m w1)) = rng (snd (m w2)).

Lemma rng_only_ret {A} (a : A) : rng_only (ret a).
Proof. intros w1 w2 H. now split. Qed.

Lemma rng_only_lift {A} (o : outcome A) : rng_only (lift o).
Proof. intros w1 w2 H. now split. Qed.

Lemma rng_only_randint lo hi : rng_only (randint lo hi).
Proof.
  intros w1 w2 H. unfold randint. rewrite H.
  destruct (rng_randint lo hi (rng w2)) as [v s]. now split.
Qed.

Lemma rng_only_bind {A B} (m : M A) (f : A -> M B) :
  rng_only m -> (forall a, rng_only (f a)) -> rng_only (bind m f).
Proof.
  intros Hm Hf w1 w2 H. unfold bind.
  destruct (Hm w1 w2 H) as [Hv Hr].
  destruct (m w1) as [[a1 | e1] u1], (m w2) as [[a2 | e2] u2];
    cbn [fst snd] in *; try discriminate.
  - injection Hv as ->. now apply Hf.
  - injection Hv as ->. now split.
Qed.

Lemma rng_only_collect {A} (body : Z -> M A) :
  (forall i, rng_only (body i)) -> forall n lo, rng_only (collect n lo body).
Proof.
  intros Hbody. induction n as [| n IH]; intros lo; cbn [collect].
  - apply rng_only_ret.
  - apply rng_only_bind; [apply Hbody |]. intros x.
    apply rng_only_bind; [apply IH |]. intros xs. apply rng_only_ret.
Qed.

Lemma rng_only_for_range {A} v (body : Z -> M A) :
  (forall i, rng_only (body i)) -> rng_only (for_range v body).
Proof.
  intros Hbody. unfold for_range.
  apply rng_only_bind; [apply rng_only_lift |].
  intros n. now apply rng_only_collect.
Qed.

Lemma rng_only_cost_row lo hi v i : rng_only (cost_row lo hi v i).
Proof.
  unfold cost_row. apply rng_only_for_range. intros j.
  destruct (Z.eqb i j); [apply rng_only_ret | apply rng_only_randint].
Qed.

(** With a seed that is not zero the matrix is a function of the seed
    and the size: neither the clock nor the world it is called in
    matter. *)
Lemma generate_cost_matrix_seeded env1 env2 num_locations s w1 w2 :
  s <> 0 ->
  fst (generate_cost_matrix env1 num_locations (Some s) w1) =
  fst (generate_cost_matrix env2 num_locations (Some s) w2).
Proof.
  intros Hs. unfold generate_cost_matrix, seed_generator.
  apply Z.eqb_neq in Hs. rewrite Hs.
  unfold bind, seed. cbn beta iota.
  apply rng_only_for_range; [| reflexivity].
  intros i. apply rng_only_cost_row.
Qed.

Lemma returns_generate_cost_matrix env n seed_arg :
  0 <= n ->
  returns (generate_cost_matrix env (JInt n) seed_arg)
    (fun m =>
       Z.of_nat (List.length m) = n /\
       forall i row, nth_error m i = Some row ->
         cost_row_ok 5 100 n (Z.of_nat i) row).
Proof.
  intros Hn. unfold generate_cost_matrix.
  eapply returns_bind; [apply returns_seed_generator |].
  intros _ _. eapply returns_weaken.
  - apply (returns_for_range n _ (cost_row_ok 5 100 n)).
    intros i. apply returns_cost_row; lia.
  - intros m [Hlen Hnth]. split; [rewrite Hlen; lia | exact Hnth].
Qed.

End CostMatrix.

(** C8. For every [num_locations = n >= 0] and every seed,
    [generate_cost_matrix(n, seed)] returns a matrix of [n] rows of [n]
    entries each, with 0 at every diagonal position and an integer
    between 5 and 100 at every other position. *)
Theorem generate_cost_matrix_shape {R : PRNG} (env : Env) (n : Z)
        (seed_arg : option Z) (w : World) :
  0 <= n ->
  exists m w',
    generate_cost_matrix env (JInt n) seed_arg w = (Ok m, w') /\
    Z.of_nat (List.length m) = n /\
    forall i row, nth_error m i = Some row ->
      Z.of_nat (List.length row) = n /\
      forall j x, nth_error row j = Some x ->
        (i = j -> x = 0) /\ (i <> j -> 5 <= x <= 100).
Proof.
  intros Hn.
  destruct (returns_generate_cost_matrix env n seed_arg Hn w)
    as (m & w' & E & Hlen & Hrows).
  exists m, w'. split; [exact E |]. split; [exact Hlen |].
  intros i row Hrow. destruct (Hrows i row Hrow) as [Hrl Hcells].
  split; [exact Hrl |]. intros j x Hx. specialize (Hcells j x Hx).
  destruct (Z.eqb_spec (Z.of_nat i) (Z.of_nat j)) as [Heq | Hne].
  - split; [intros _; exact Hcells | intros Hij; lia].
  - split; [intros Hij; subst; lia | intros _; exact Hcells].
Qed.

Lemma generate_cost_matrix_shape_witness :
  exists m w',
    generate_cost_matrix (Mock.frozen 1) (JInt 3) (Some 7) Mock.world0
      = (Ok m, w') /\
    Z.of_nat (List.length m) = 3 /\
    forall i row, nth_error m i = Some row ->
      Z.of_nat (List.length row) = 3 /\
      forall j x, nth_error row j = Some x ->
        (i = j -> x = 0) /\ (i <> j -> 5 <= x <= 100).
Proof.
  apply (generate_cost_matrix_shape (Mock.frozen 1) 3 (Some 7) Mock.world0).
  lia.
Defined.

(** C2, at the seed the code mishandles.  [generate_cost_matrix(2, 0)]
    run twice from the same world, with the clock at 1 ms and at 2 ms:
    the seed 0 is taken for an absent one, the generator is seeded from
    the clock, and the two matrices differ. *)
Theorem generate_cost_matrix_seed_zero :
  fst (generate_cost_matrix (Mock.frozen 1) (JInt 2) (Some 0) Mock.world0)
    = Ok [[0; 11]; [44; 0]] /\
  fst (generate_cost_matrix (Mock.frozen 2) (JInt 2) (Some 0) Mock.world0)
    = Ok [[0; 24]; [21; 0]].
Proof. split; vm_compute; reflexivity. Qed.

(* ===================================================================== *)
(** ** Payloads *)
(* ===================================================================== *)

(** [len(payload[section][name])] *)
Definition field_len (section name : string) (payload : json) : option Z :=
  match field section name payload with
  | Some v => jlen v
  | None => None
  end.

Lemma zrange_length lo n : List.length (zrange lo n) = n.
Proof.
  revert lo. induction n as [| n IH]; intros lo; cbn; [reflexivity |].
  now rewrite IH.
Qed.

Lemma zrange_nth lo n k x :
  nth_error (zrange lo n) k = Some x -> x = lo + Z.of_nat k.
Proof.
  revert lo k. induction n as [| n IH]; intros lo [| k] H; cbn in H;
    try discriminate.
  - injection H as <-. lia.
  - apply IH in H. lia.
Qed.

Section Payload.

Context {R : PRNG}.
Variable env : Env.

(** What [build_vrp_payload] makes of [N] locations when no override
    is given. *)
Definition task_data_ok (N : Z) (payload : json) : Prop :=
  field "task_data" "task_locations" payload
    = Some (jints (zrange 1 (Z.to_nat (N - 1)))) /\
  (exists demands,
      field "task_data" "demand" payload = Some (JArr [jints demands]) /\
      Z.of_nat (List.length demands) = N - 1) /\
  field_len "task_data" "service_times" payload = Some (N - 1) /\
  field_len "task_data" "task_time_windows" payload = Some (N - 1).

Lemma returns_build_vrp_payload nv N vc tl :
  1 <= N ->
  returns
    (build_vrp_payload env (JInt nv) (JInt N) vc tl JNull JNull JNull)
    (task_data_ok N).
Proof.
  intros HN. unfold build_vrp_payload.
  eapply returns_bind; [apply returns_generate_cost_matrix; lia |].
  intros cost_matrix _. cbn [py_sub_int].
  apply (returns_bind _ _ (fun a => a = JInt (N - 1)));
    [now apply returns_lift |]. intros ? ->.
  eapply returns_bind.
  { eapply returns_bind.
    - apply (returns_for_range _ _ (fun _ v => 5 <= v <= 20)).
      intros _. apply returns_randint; lia.
    - intros ds Hds.
      apply (returns_ret _
               (fun d => exists l, d = jints l /\
                                   List.length l = Z.to_nat (N - 1))).
      exists ds. split; [reflexivity | apply Hds]. }
  intros ? (ds & -> & Hds).
  eapply returns_bind.
  { eapply returns_bind.
    - apply (returns_for_range _ _ (fun _ v => 5 <= v <= 15)).
      intros _. apply returns_randint; lia.
    - intros ss Hss.
      apply (returns_ret _
               (fun d => exists l, d = jints l /\
                                   List.length l = Z.to_nat (N - 1))).
      exists ss. split; [reflexivity | apply Hss]. }
  intros ? (ss & -> & Hss).
  eapply returns_bind.
  { eapply returns_bind.
    - apply (returns_for_range _ _ (fun _ _ => True)).
      intros _. now apply returns_ret.
    - intros ws Hws.
      apply (returns_ret _
               (fun d => exists l, d = JArr l /\
                                   List.length l = Z.to_nat (N - 1))).
      exists ws. split; [reflexivity | apply Hws]. }
  intros ? (ws & -> & Hws).
  eapply returns_bind.
  { apply (returns_for_range _ _ (fun _ _ => True)).
    intros _. now apply returns_ret. }
  intros vehicle_locations _. cbn [as_index].
  apply (returns_bind _ _ (fun a => a = nv)); [now apply returns_lift |].
  intros ? ->.
  eapply returns_bind.
  { apply (returns_for_range _ _ (fun _ _ => True)).
    intros _. now apply returns_ret. }
  intros vehicle_time_windows _.
  apply (returns_bind _ _ (fun a => a = N)); [now apply returns_lift |].
  intros ? ->.
  apply returns_ret. unfold task_data_ok, field_len, field.
  cbn [Dict.get String.eqb Ascii.eqb Bool.eqb jlen jints].
  split; [reflexivity |]. split.
  - exists ds. split; [reflexivity | rewrite Hds; lia].
  - rewrite length_map, Hss, Hws. split; f_equal; lia.
Qed.

End Payload.

(** C3 as the code has it.  For every [num_locations = N >= 2], with no
    override given, [build_vrp_payload] returns a payload whose
    [task_locations] are the indices 1, ..., N-1 in this order, whose
    [service_times] and [task_time_windows] have length N-1, and whose
    [demand] is a list of a single row, of length N-1. *)
Theorem build_vrp_payload_task_data {R : PRNG} (env : Env)
        (num_vehicles N : Z) (vehicle_capacity time_limit : json)
        (w : World) :
  2 <= N ->
  exists payload w' locations demands,
    build_vrp_payload env (JInt num_vehicles) (JInt N) vehicle_capacity
      time_limit JNull JNull JNull w = (Ok payload, w') /\
    field "task_data" "task_locations" payload = Some (jints locations) /\
    Z.of_nat (List.length locations) = N - 1 /\
    (forall k x, nth_error locations k = Some x -> x = 1 + Z.of_nat k) /\
    field "task_data" "demand" payload = Some (JArr [jints demands]) /\
    Z.of_nat (List.length demands) = N - 1 /\
    field_len "task_data" "service_times" payload = Some (N - 1) /\
    field_len "task_data" "task_time_windows" payload = Some (N - 1).
Proof.
  intros HN.
  destruct (returns_build_vrp_payload env num_vehicles N vehicle_capacity
              time_limit ltac:(lia) w)
    as (payload & w' & E & Hloc & (demands & Hd & Hdl) & Hst & Htw).
  exists payload, w', (zrange 1 (Z.to_nat (N - 1))), demands.
  repeat split; try assumption.
  - rewrite zrange_length. lia.
  - intros k x. apply zrange_nth.
Qed.

Lemma build_vrp_payload_task_data_witness :
  exists payload w' locations demands,
    build_vrp_payload (Mock.frozen 1) (JInt 2) (JInt 3) (JInt 100)
      (JInt 30) JNull JNull JNull Mock.world0 = (Ok payload, w') /\
    field "task_data" "task_locations" payload = Some (jints locations) /\
    Z.of_nat (List.length locations) = 3 - 1 /\
    (forall k x, nth_error locations k = Some x -> x = 1 + Z.of_nat k) /\
    field "task_data" "demand" payload = Some (JArr [jints demands]) /\
    Z.of_nat (List.length demands) = 3 - 1 /\
    field_len "task_data" "service_times" payload = Some (3 - 1) /\
    field_len "task_data" "task_time_windows" payload = Some (3 - 1).
Proof.
  apply (build_vrp_payload_task_data (Mock.frozen 1) 2 3 (JInt 100)
           (JInt 30) Mock.world0).
  lia.
Defined.

(** C3 as stated fails at [N = 3]: the [demand] field of the payload is
    the list [[demands]], of length 1 and not 2. *)
Lemma build_vrp_payload_demand_field :
  exists payload w',
    build_vrp_payload (Mock.frozen 1) (JInt 2) (JInt 3) (JInt 100)
      (JInt 30) JNull JNull JNull Mock.world0 = (Ok payload, w') /\
    field_len "task_data" "demand" payload = Some 1 /\
    field_len "task_data" "demand" payload <> Some (3 - 1).
Proof.
  eexists _, _. split; [evaluate_lhs; reflexivity |].
  split; [reflexivity | discriminate].
Qed.

(* ===================================================================== *)
(** ** The EV fleet problem *)
(* ===================================================================== *)

(** A window that lies in the operating day and is not empty. *)
Definition window_ok (tw : json) : Prop :=
  exists start stop,
    as_window tw = Some (start, stop) /\
    480 <= start <= 900 /\ start < stop <= 1080.

Section EvWindows.

Context {R : PRNG}.
Variable env : Env.

Lemma returns_time_window i : returns (EvFleet.time_window i) window_ok.
Proof.
  unfold EvFleet.time_window.
  eapply returns_bind; [apply (returns_randint 480 900); lia |].
  intros start Hstart.
  eapply returns_bind; [apply (returns_randint 60 180); lia |].
  intros len Hlen. apply returns_ret.
  exists start, (Z.min (start + len) 1080).
  cbv beta in Hstart, Hlen. split; [reflexivity | lia].
Qed.

Lemma returns_generate_ev_fleet_problem nv nd ncs bc avg :
  returns (EvFleet.generate_ev_fleet_problem env nv nd ncs bc avg)
    (fun payload =>
       exists tws,
         field "task_data" "task_time_windows" payload = Some (JArr tws) /\
         List.length tws = Z.to_nat nd /\
         Forall window_ok tws).
Proof.
  unfold EvFleet.generate_ev_fleet_problem.
  eapply returns_bind; [apply returns_time |]. intros t _.
  eapply returns_bind; [apply returns_seed |]. intros _ _.
  eapply returns_bind.
  { apply (returns_collect _ (fun _ _ => True)). intros i.
    eapply returns_weaken.
    - apply (returns_collect _ (fun _ _ => True)). intros j.
      destruct (Z.eqb i j);
        [now apply returns_ret |
         eapply returns_weaken; [apply (returns_randint 3 15); lia | auto]].
    - auto. }
  intros cost_matrix _.
  eapply returns_bind.
  { apply (returns_collect _ (fun _ _ => True)). intros _.
    eapply returns_weaken; [apply (returns_randint 1 10); lia | auto]. }
  intros demands _.
  eapply returns_bind.
  { apply (returns_collect _ (fun _ _ => True)). intros _.
    eapply returns_weaken; [apply (returns_randint 5 15); lia | auto]. }
  intros service_times _.
  eapply returns_bind.
  { apply (returns_collect _ (fun _ tw => window_ok tw)).
    apply returns_time_window. }
  intros tws [Hlen Hnth]. apply returns_ret.
  exists tws. split; [reflexivity |]. split; [exact Hlen |].
  apply Forall_forall. intros tw Hin.
  apply In_nth_error in Hin. destruct Hin as [k Hk].
  exact (Hnth k tw Hk).
Qed.

End EvWindows.

(** C10. Every call of [generate_ev_fleet_problem] returns a payload
    with one time window per delivery, and every window [[start, end]]
    has [480 <= start <= 900] and [start < end <= 1080]. *)
Theorem generate_ev_fleet_problem_windows {R : PRNG} (env : Env)
        (num_vehicles num_deliveries num_charging_stations
         battery_capacity avg_distance_per_delivery : Z) (w : World) :
  exists payload w' tws,
    EvFleet.generate_ev_fleet_problem env num_vehicles num_deliveries
      num_charging_stations battery_capacity avg_distance_per_delivery w
      = (Ok payload, w') /\
    field "task_data" "task_time_windows" payload = Some (JArr tws) /\
    List.length tws = Z.to_nat num_deliveries /\
    forall tw, In tw tws ->
      exists start stop,
        as_window tw = Some (start, stop) /\
        480 <= start <= 900 /\ start < stop <= 1080.
Proof.
  destruct (returns_generate_ev_fleet_problem env num_vehicles
              num_deliveries num_charging_stations battery_capacity
              avg_distance_per_delivery w)
    as (payload & w' & E & tws & Hf & Hlen & Hall).
  exists payload, w', tws. repeat split; try assumption.
  intros tw Hin. rewrite Forall_forall in Hall. exact (Hall tw Hin).
Qed.

(* ===================================================================== *)
(** ** Submitting a payload *)
(* ===================================================================== *)

Lemma dict_get_set_same k v d : Dict.get k (Dict.set k v d) = Some v.
Proof.
  induction d as [| [k0 v0] d IH]; cbn.
  - now rewrite String.eqb_refl.
  - destruct (String.eqb k k0) eqn:E; cbn.
    + now rewrite String.eqb_refl.
    + now rewrite E.
Qed.

Lemma dict_get_set_other k k' v d :
  k' <> k -> Dict.get k' (Dict.set k v d) = Dict.get k' d.
Proof.
  intros Hne. induction d as [| [k0 v0] d IH]; cbn.
  - apply String.eqb_neq in Hne. now rewrite Hne.
  - destruct (String.eqb_spec k k0) as [<- | Hk]; cbn.
    + apply String.eqb_neq in Hne. now rewrite Hne.
    + now rewrite IH.
Qed.

Section Optimize.

Context {R : PRNG}.
Variable env : Env.

(** The request goes out with the effective timeout, whatever comes
    back. *)
Lemma optimize_requests payload timeout t w :
  effective_timeout payload timeout = Ok t ->
  requests (snd (optimize env payload timeout w))
    = (requests w ++ [(payload, t)])%list.
Proof.
  intros Ht. unfold optimize. rewrite Ht.
  unfold bind, lift, time, post, ret, raise. cbn.
  destruct (service env (List.length (requests w)) payload t)
    as [e | code [body |]]; cbn; try reflexivity.
  all: destruct body; reflexivity.
Qed.

(** A run of [optimize] on an answer whose body is an object. *)
Lemma optimize_responds payload timeout t w code body :
  effective_timeout payload timeout = Ok t ->
  service env (List.length (requests w)) payload t
    = PostResponds code (Some (JObj body)) ->
  optimize env payload timeout w =
    (Ok (Dict.set "_metadata"
           (metadata (clock env (S (ticks w)) - clock env (ticks w))%Q code)
           body),
     mkWorld (rng w) (S (S (ticks w)))
             (requests w ++ [(payload, t)])%list (stdout w)).
Proof.
  intros Ht Hs. unfold optimize. rewrite Ht.
  unfold bind, lift, time, post, ret, raise. cbn. rewrite Hs. reflexivity.
Qed.

(** What [optimize] returns is a decoded object with the metadata set. *)
Lemma optimize_ok_inv payload timeout w result w' :
  optimize env payload timeout w = (Ok result, w') ->
  exists elapsed code body,
    result = Dict.set "_metadata" (metadata elapsed code) body.
Proof.
  unfold optimize, bind, lift, time, post, ret, raise. cbn.
  destruct (effective_timeout payload timeout) as [t | e];
    [| discriminate].
  destruct (service env (List.length (requests w)) payload t)
    as [e | code [body |]]; cbn; try discriminate.
  destruct body; cbn; try discriminate.
  intros H. injection H as <- _. eauto.
Qed.

End Optimize.

(** C4. When [optimize] is called without a timeout on a payload whose
    [solver_config.time_limit] is the integer [t], the timeout it
    computes, and with which the request is posted, is [t + 120]. *)
Theorem optimize_default_timeout {R : PRNG} (env : Env) (payload : json)
        (t : Z) (w : World) :
  field "solver_config" "time_limit" payload = Some (JInt t) ->
  effective_timeout payload JNull = Ok (JInt (t + 120)) /\
  requests (snd (optimize env payload JNull w))
    = (requests w ++ [(payload, JInt (t + 120))])%list.
Proof.
  intros Hf.
  assert (Ht : effective_timeout payload JNull = Ok (JInt (t + 120))).
  { unfold field in Hf. destruct payload as [| | | | | | d]; try discriminate.
    unfold effective_timeout, Dict.get_default.
    destruct (Dict.get "solver_config" d) as [[| | | | | | sc] |];
      try discriminate.
    now rewrite Hf. }
  split; [exact Ht | now apply optimize_requests].
Qed.

Lemma optimize_default_timeout_witness :
  let payload := JObj [("solver_config", JObj [("time_limit", JInt 30)])] in
  effective_timeout payload JNull = Ok (JInt 150) /\
  requests (snd (optimize (Mock.constant 200 Mock.solved) payload JNull
                          Mock.world0))
    = [(payload, JInt 150)].
Proof.
  exact (optimize_default_timeout (Mock.constant 200 Mock.solved)
           (JObj [("solver_config", JObj [("time_limit", JInt 30)])])
           30 Mock.world0 eq_refl).
Defined.

(** C5 as the code has it.  For every status code and every answer whose
    body decodes to a JSON object, [optimize] returns normally; what it
    returns is the decoded object with [_metadata] set, every other key
    untouched; the metadata carry the status code of the answer and, as
    the response time, the difference of the two clock readings taken
    around the request, which is not negative exactly when the clock
    did not step back between them. *)
Theorem optimize_returns_body {R : PRNG} (env : Env) (payload timeout t : json)
        (w : World) (status_code : Z) (body : dict) :
  effective_timeout payload timeout = Ok t ->
  service env (List.length (requests w)) payload t
    = PostResponds status_code (Some (JObj body)) ->
  let elapsed := (clock env (S (ticks w)) - clock env (ticks w))%Q in
  exists result w',
    optimize env payload timeout w = (Ok result, w') /\
    result = Dict.set "_metadata" (metadata elapsed status_code) body /\
    Dict.get "_metadata" result
      = Some (JObj [ ("response_time_seconds", JFloat elapsed);
                     ("status_code", JInt status_code) ]) /\
    (forall k, k <> "_metadata" -> Dict.get k result = Dict.get k body) /\
    ((0 <= elapsed)%Q <->
     (clock env (ticks w) <= clock env (S (ticks w)))%Q).
Proof.
  intros Ht Hs elapsed.
  eexists _, _. split; [apply (optimize_responds env _ _ _ _ _ _ Ht Hs) |].
  split; [reflexivity |]. split; [apply dict_get_set_same |].
  split; [intros k Hk; now apply dict_get_set_other |].
  subst elapsed. symmetry. apply Qle_minus_iff.
Qed.

Lemma optimize_returns_body_witness :
  exists result w',
    optimize (Mock.constant 200 Mock.solved) (JObj []) JNull Mock.world0
      = (Ok result, w') /\
    result = Dict.set "_metadata" (metadata (1 - 0) 200)
               [("response",
                  JObj [("solver_response",
                          JObj [("status", JInt 0);
                                ("solution_cost", JInt 123)])])] /\
    Dict.get "_metadata" result
      = Some (JObj [ ("response_time_seconds", JFloat (1 - 0));
                     ("status_code", JInt 200) ]) /\
    (forall k, k <> "_metadata" ->
       Dict.get k result
       = Dict.get k [("response",
                       JObj [("solver_response",
                               JObj [("status", JInt 0);
                                     ("solution_cost", JInt 123)])])]) /\
    ((0 <= 1 - 0)%Q <-> (0 <= 1)%Q).
Proof.
  exact (optimize_returns_body (Mock.constant 200 Mock.solved) (JObj [])
           JNull (JInt 150) Mock.world0 200 _ eq_refl eq_refl).
Defined.

(** C5 as stated fails twice.  On a body that is JSON but no object,
    here the answer [200 []], the assignment of [_metadata] raises
    [TypeError].  And when the clock is set back between the two
    readings, here from 1 to 0, the response time that comes back with
    an answer [200 {...}] is negative. *)
Lemma optimize_not_as_claimed :
  fst (optimize (Mock.constant 200 (JArr [])) (JObj []) JNull Mock.world0)
    = Raise TypeError /\
  exists result elapsed,
    fst (optimize Mock.set_back (JObj []) JNull Mock.world0) = Ok result /\
    Dict.get "_metadata" result
      = Some (JObj [ ("response_time_seconds", JFloat elapsed);
                     ("status_code", JInt 200) ]) /\
    (elapsed < 0)%Q.
Proof.
  split; [vm_compute; reflexivity |].
  eexists _, _. split; [evaluate_lhs; reflexivity |].
  split; [reflexivity | reflexivity].
Qed.

(* ===================================================================== *)
(** ** Keyword arguments *)
(* ===================================================================== *)

Lemma is_in_optimize_fleet_parameters k :
  is_in build_vrp_payload_parameters k = false ->
  is_in optimize_fleet_parameters k = false.
Proof.
  unfold is_in, build_vrp_payload_parameters, optimize_fleet_parameters.
  cbn [existsb]. intros H.
  apply orb_false_iff in H. destruct H as [E1 H].
  apply orb_false_iff in H. destruct H as [E2 H].
  apply orb_false_iff in H. destruct H as [E3 H].
  apply orb_false_iff in H. destruct H as [E4 _].
  now rewrite E1, E2, E3, E4.
Qed.

Lemma keys_without ks k d :
  In k (Dict.keys d) -> existsb (String.eqb k) ks = false ->
  In k (Dict.keys (Dict.without ks d)).
Proof.
  unfold Dict.keys, Dict.without. intros Hin Hk.
  apply in_map_iff in Hin. destruct Hin as ([k0 v] & Hfst & Hin).
  cbn in Hfst. subst k0. apply in_map_iff. exists (k, v).
  split; [reflexivity |]. apply filter_In. split; [exact Hin |].
  cbn [fst]. now rewrite Hk.
Qed.

Section Keywords.

Context {R : PRNG}.
Variable env : Env.

(** A keyword outside the parameters of [build_vrp_payload] makes the
    call of [optimize_fleet] raise [TypeError] on the spot, the world
    untouched. *)
Lemma optimize_fleet_unexpected_keyword scenario k w :
  In k (Dict.keys scenario) ->
  is_in build_vrp_payload_parameters k = false ->
  optimize_fleet env scenario w = (Raise TypeError, w).
Proof.
  intros Hin Hk. unfold optimize_fleet.
  destruct (Dict.get "num_vehicles" scenario) as [nv |];
    [| reflexivity].
  destruct (Dict.get "num_locations" scenario) as [nl |];
    [| reflexivity].
  unfold call_build_vrp_payload.
  destruct (forallb (is_in build_vrp_payload_parameters)
              (Dict.keys (Dict.without optimize_fleet_parameters scenario)))
    eqn:E; [| reflexivity].
  rewrite forallb_forall in E.
  specialize (E k (keys_without _ _ _ Hin
                     (is_in_optimize_fleet_parameters k Hk))).
  congruence.
Qed.

Lemma run_iteration_unexpected_keyword scenario k n i w :
  In k (Dict.keys scenario) ->
  is_in build_vrp_payload_parameters k = false ->
  run_iteration env scenario n i w = (Raise TypeError, w).
Proof.
  intros Hin Hk. unfold run_iteration.
  apply bind_raise. now apply (optimize_fleet_unexpected_keyword _ k).
Qed.

Lemma dict_mem_keys k d : Dict.mem k d = true -> In k (Dict.keys d).
Proof.
  unfold Dict.mem, Dict.keys.
  induction d as [| [k0 v] d IH]; cbn; [discriminate |].
  destruct (String.eqb_spec k k0) as [-> | Hne]; [now left |].
  intros H. right. now apply IH.
Qed.

(** A scenario that carries a ["name"] cannot be run once. *)
Lemma run_scenario_named iterations scenario acc w :
  Dict.mem "name" scenario = true ->
  Dict.mem "num_vehicles" scenario = true ->
  Dict.mem "num_locations" scenario = true ->
  1 <= iterations ->
  fst (run_scenario env iterations scenario acc w) = Raise TypeError.
Proof.
  intros Hname Hnv Hnl Hit. unfold run_scenario.
  unfold Dict.mem in Hnv, Hnl.
  unfold getitem.
  destruct (Dict.get "num_vehicles" scenario) as [nv |]; [| discriminate].
  destruct (Dict.get "num_locations" scenario) as [nl |]; [| discriminate].
  destruct (Z.to_nat iterations) as [| n] eqn:En; [lia |].
  cbn [collect].
  unfold bind at 1. unfold print at 1. cbn beta iota.
  unfold bind at 1. unfold lift at 1. cbn beta iota.
  unfold bind at 1. unfold lift at 1. cbn beta iota.
  unfold bind at 1. unfold print at 1. cbn beta iota.
  unfold bind at 1. unfold bind at 1.
  erewrite (run_iteration_unexpected_keyword scenario "name");
    [reflexivity | now apply dict_mem_keys | reflexivity].
Qed.

End Keywords.

(** C9. A scenario dictionary with a key that is no parameter of
    [build_vrp_payload] (such as ["name"]) makes the iteration call
    raise [TypeError]: the whole dictionary is passed on as keywords. *)
Theorem optimize_fleet_rejects_extra_key {R : PRNG} (env : Env)
        (scenario : dict) (k : string) (iterations i : Z) (w : World) :
  In k (Dict.keys scenario) ->
  ~ In k [ "num_vehicles"; "num_locations"; "vehicle_capacity";
           "time_limit"; "time_windows"; "demands"; "service_times" ] ->
  optimize_fleet env scenario w = (Raise TypeError, w) /\
  run_iteration env scenario iterations i w = (Raise TypeError, w).
Proof.
  intros Hin Hout.
  assert (Hk : is_in build_vrp_payload_parameters k = false).
  { unfold is_in. destruct (existsb _ _) eqn:E; [| reflexivity].
    apply existsb_exists in E. destruct E as (x & Hx & Heq).
    apply String.eqb_eq in Heq. subst x. contradiction. }
  split.
  - now apply (optimize_fleet_unexpected_keyword env scenario k).
  - now apply (run_iteration_unexpected_keyword env scenario k).
Qed.

Lemma optimize_fleet_rejects_extra_key_witness :
  optimize_fleet (Mock.constant 200 Mock.solved)
    (Mock.scenario (Some "A") 1 2) Mock.world0
    = (Raise TypeError, Mock.world0) /\
  run_iteration (Mock.constant 200 Mock.solved)
    (Mock.scenario (Some "A") 1 2) 3 0 Mock.world0
    = (Raise TypeError, Mock.world0).
Proof.
  apply (optimize_fleet_rejects_extra_key (Mock.constant 200 Mock.solved)
           (Mock.scenario (Some "A") 1 2) "name" 3 0 Mock.world0).
  - cbn. left. reflexivity.
  - cbn. intros H.
    repeat (destruct H as [H | H]; [discriminate |]). exact H.
Defined.

(** C1, where the code departs from it.  As soon as the first scenario
    carries a ["name"] next to [num_vehicles] and [num_locations] and at
    least one iteration is asked for, [run_benchmark] raises [TypeError]
    and returns no report. *)
Theorem run_benchmark_named_scenario {R : PRNG} (env : Env)
        (A : dict) (rest : list dict) (iterations : Z) (w : World) :
  Dict.mem "name" A = true ->
  Dict.mem "num_vehicles" A = true ->
  Dict.mem "num_locations" A = true ->
  1 <= iterations ->
  fst (run_benchmark env (A :: rest) iterations w) = Raise TypeError.
Proof.
  intros Hname Hnv Hnl Hit.
  pose proof (run_scenario_named env iterations A [] w Hname Hnv Hnl Hit)
    as H.
  unfold run_benchmark. cbn [run_scenarios]. unfold bind at 1 2.
  destruct (run_scenario env iterations A [] w) as [[acc | e] w1];
    cbn [fst] in H; [discriminate |].
  injection H as ->. reflexivity.
Qed.

Lemma run_benchmark_named_scenario_witness :
  fst (run_benchmark (Mock.constant 200 Mock.solved)
         [Mock.scenario (Some "A") 1 2; Mock.scenario (Some "B") 1 2] 3
         Mock.world0)
    = Raise TypeError.
Proof.
  apply (run_benchmark_named_scenario (Mock.constant 200 Mock.solved)
           (Mock.scenario (Some "A") 1 2) [Mock.scenario (Some "B") 1 2] 3
           Mock.world0).
  - reflexivity.
  - reflexivity.
  - reflexivity.
  - lia.
Defined.

(* ===================================================================== *)
(** ** The runner: what an iteration records *)
(* ===================================================================== *)

Section Runner.

Context {R : PRNG}.
Variable env : Env.

Lemma optimize_fleet_ok_inv kw w result w' :
  optimize_fleet env kw w = (Ok result, w') ->
  exists elapsed code body,
    result = Dict.set "_metadata" (metadata elapsed code) body.
Proof.
  unfold optimize_fleet.
  destruct (Dict.get "num_vehicles" kw); [| unfold raise; discriminate].
  destruct (Dict.get "num_locations" kw); [| unfold raise; discriminate].
  intros H. apply bind_ok_inv in H. destruct H as (payload & w1 & _ & H).
  now apply optimize_ok_inv in H.
Qed.

Lemma dict_mem_set_other k k' v d :
  k' <> k -> Dict.mem k' (Dict.set k v d) = Dict.mem k' d.
Proof. intros H. unfold Dict.mem. now rewrite dict_get_set_other. Qed.

Lemma dict_mem_true k d :
  Dict.mem k d = true <-> exists v, Dict.get k d = Some v.
Proof.
  unfold Dict.mem. destruct (Dict.get k d) as [v |]; split.
  - intros _. now exists v.
  - reflexivity.
  - discriminate.
  - intros [v Hv]. discriminate.
Qed.

(** The record made of a result that came back. *)
Lemma run_iteration_ok scenario n i w elapsed code body w1 :
  optimize_fleet env scenario w
    = (Ok (Dict.set "_metadata" (metadata elapsed code) body), w1) ->
  run_iteration env scenario n i w =
    (Ok (mkRecord (i + 1) (JFloat elapsed) (Dict.mem "response" body)),
     mkWorld (rng w1) (ticks w1) (requests w1)
       (stdout w1 ++ [PrintIteration (i + 1) n (JFloat elapsed)])%list).
Proof.
  intros H. unfold run_iteration.
  rewrite (bind_ok _ _ _ _ _ H).
  cbn [getitem lift]. rewrite dict_get_set_same.
  unfold bind, lift, print, ret, metadata. cbn.
  rewrite dict_mem_set_other by discriminate. reflexivity.
Qed.

End Runner.



(** The error body of the specification, run through the runner: the
    submission returns and the one record says [success = false]. *)
Lemma run_benchmark_error_body :
  exists report,
    fst (run_benchmark (Mock.constant 200 Mock.bad_request)
           [Mock.scenario None 1 2] 1 Mock.world0) = Ok report /\
    map (fun e => map success (results (snd e))) (scenarios report)
      = [[false]].
Proof. eexists. split; vm_compute; reflexivity. Qed.

(* ===================================================================== *)
(** ** The runner: a failed submission ends the run *)
(* ===================================================================== *)

(** The exception a submission ends with, given the answer to its POST:
    the transport's own, [JSONDecodeError] for a body that is no JSON,
    [TypeError] for a JSON body that is no object; none for an object. *)
Definition failure_of (o : post_outcome) : option exn :=
  match o with
  | PostRaises e => Some e
  | PostResponds _ None => Some JSONDecodeError
  | PostResponds _ (Some (JObj _)) => None
  | PostResponds _ (Some _) => Some TypeError
  end.

Section Propagation.

Context {R : PRNG}.
Variable env : Env.

(** [silent m]: [m] posts nothing. *)
Definition silent {A} (m : M A) : Prop :=
  forall w, requests (snd (m w)) = requests w.

(** [fail_fast m]: the requests [m] posts extend the log, and if one of
    them fails, [m] ends with that very exception. *)
Definition fail_fast {A} (m : M A) : Prop :=
  forall w out w',
    m w = (out, w') ->
    exists new,
      requests w' = (requests w ++ new)%list /\
      forall i p t e,
        nth_error new i = Some (p, t) ->
        failure_of (service env (List.length (requests w) + i) p t)
          = Some e ->
        out = Raise e.

Lemma silent_ret {A} (a : A) : silent (ret a).
Proof. intros w. reflexivity. Qed.

Lemma silent_raise {A} e : silent (@raise R A e).
Proof. intros w. reflexivity. Qed.

Lemma silent_lift {A} (o : outcome A) : silent (lift o).
Proof. intros w. reflexivity. Qed.

Lemma silent_time : silent (time env).
Proof. intros w. reflexivity. Qed.

Lemma silent_seed a : silent (seed a).
Proof. intros w. reflexivity. Qed.

Lemma silent_print e : silent (print e).
Proof. intros w. reflexivity. Qed.

Lemma silent_randint lo hi : silent (randint lo hi).
Proof.
  intros w. unfold randint.
  destruct (rng_randint lo hi (rng w)). reflexivity.
Qed.

Lemma silent_bind {A B} (m : M A) (f : A -> M B) :
  silent m -> (forall a, silent (f a)) -> silent (bind m f).
Proof.
  intros Hm Hf w. unfold bind. specialize (Hm w).
  destruct (m w) as [[a | e] w1]; cbn [snd] in *.
  - rewrite Hf. exact Hm.
  - exact Hm.
Qed.

Lemma silent_collect {A} (body : Z -> M A) :
  (forall i, silent (body i)) -> forall n lo, silent (collect n lo body).
Proof.
  intros Hbody. induction n as [| n IH]; intros lo; cbn [collect].
  - apply silent_ret.
  - apply silent_bind; [apply Hbody |]. intros x.
    apply silent_bind; [apply IH |]. intros xs. apply silent_ret.
Qed.

Lemma silent_for_range {A} v (body : Z -> M A) :
  (forall i, silent (body i)) -> silent (for_range v body).
Proof.
  intros Hbody. unfold for_range.
  apply silent_bind; [apply silent_lift |].
  intros n. now apply silent_collect.
Qed.

Ltac silence :=
  repeat first
    [ apply silent_ret | apply silent_raise | apply silent_lift
    | apply silent_time | apply silent_seed | apply silent_print
    | apply silent_randint
    | apply silent_for_range; intros ?
    | apply silent_collect; intros ?
    | apply silent_bind; [| intros ?]
    | progress cbv beta
    | match goal with
      | |- silent (match ?x with _ => _ end) => destruct x
      end ].

Lemma silent_generate_cost_matrix v seed_arg :
  silent (generate_cost_matrix env v seed_arg).
Proof.
  unfold generate_cost_matrix, seed_generator, cost_row. silence.
Qed.

Lemma silent_build_vrp_payload nv nl vc tl tw dem st :
  silent (build_vrp_payload env nv nl vc tl tw dem st).
Proof.
  unfold build_vrp_payload.
  apply silent_bind; [apply silent_generate_cost_matrix |].
  intros cost_matrix. silence.
Qed.

Lemma silent_fail_fast {A} (m : M A) : silent m -> fail_fast m.
Proof.
  intros Hm w out w' E. specialize (Hm w). rewrite E in Hm. cbn in Hm.
  exists []. split; [now rewrite app_nil_r |].
  intros [| i] p t e Hn; discriminate.
Qed.

Lemma fail_fast_bind {A B} (m : M A) (f : A -> M B) :
  fail_fast m -> (forall a, fail_fast (f a)) -> fail_fast (bind m f).
Proof.
  intros Hm Hf w out w' E. unfold bind in E.
  destruct (m w) as [[a | e0] w1] eqn:Em.
  - destruct (Hm w _ _ Em) as (new1 & Hr1 & H1).
    destruct (Hf a w1 _ _ E) as (new2 & Hr2 & H2).
    exists (new1 ++ new2)%list. split.
    + now rewrite Hr2, Hr1, app_assoc.
    + intros i p t e Hn Hfail.
      destruct (Nat.lt_ge_cases i (List.length new1)) as [Hlt | Hge].
      * rewrite nth_error_app1 in Hn by exact Hlt.
        specialize (H1 i p t e Hn Hfail). discriminate.
      * rewrite nth_error_app2 in Hn by exact Hge.
        apply (H2 _ p t e Hn).
        rewrite Hr1, length_app.
        replace (List.length (requests w) + List.length new1
                 + (i - List.length new1))%nat
          with (List.length (requests w) + i)%nat by lia.
        exact Hfail.
  - injection E as <- <-.
    destruct (Hm w _ _ Em) as (new1 & Hr1 & H1).
    exists new1. split; [exact Hr1 |].
    intros i p t e Hn Hfail. specialize (H1 i p t e Hn Hfail).
    injection H1 as ->. reflexivity.
Qed.

Lemma fail_fast_collect {A} (body : Z -> M A) :
  (forall i, fail_fast (body i)) ->
  forall n lo, fail_fast (collect n lo body).
Proof.
  intros Hbody. induction n as [| n IH]; intros lo; cbn [collect].
  - apply silent_fail_fast, silent_ret.
  - apply fail_fast_bind; [apply Hbody |]. intros x.
    apply fail_fast_bind; [apply IH |]. intros xs.
    apply silent_fail_fast, silent_ret.
Qed.

Lemma fail_fast_optimize payload timeout :
  fail_fast (optimize env payload timeout).
Proof.
  intros w out w' E. unfold optimize in E.
  destruct (effective_timeout payload timeout) as [t | e0] eqn:Et.
  - unfold bind, lift, time, post, ret, raise in E. cbn in E.
    exists [(payload, t)].
    destruct (service env (List.length (requests w)) payload t)
      as [e1 | code [body |]] eqn:Es; cbn in E.
    + injection E as <- <-. split; [reflexivity |].
      intros [| [| i]] p' t' e' Hn Hf; try discriminate.
      injection Hn as <- <-. rewrite Nat.add_0_r, Es in Hf.
      cbn in Hf. congruence.
    + destruct body; cbn in E; injection E as <- <-;
        (split; [reflexivity |]);
        intros [| [| i]] p' t' e' Hn Hf; try discriminate;
        injection Hn as <- <-; rewrite Nat.add_0_r, Es in Hf;
        cbn in Hf; congruence.
    + injection E as <- <-. split; [reflexivity |].
      intros [| [| i]] p' t' e' Hn Hf; try discriminate.
      injection Hn as <- <-. rewrite Nat.add_0_r, Es in Hf.
      cbn in Hf. congruence.
  - unfold bind, lift in E. injection E as <- <-.
    exists []. split; [now rewrite app_nil_r |].
    intros [| i] p' t' e' Hn; discriminate.
Qed.

Lemma fail_fast_optimize_fleet kw : fail_fast (optimize_fleet env kw).
Proof.
  unfold optimize_fleet.
  destruct (Dict.get "num_vehicles" kw);
    [| apply silent_fail_fast, silent_raise].
  destruct (Dict.get "num_locations" kw);
    [| apply silent_fail_fast, silent_raise].
  apply fail_fast_bind.
  - apply silent_fail_fast. unfold call_build_vrp_payload.
    destruct (forallb _ _);
      [apply silent_build_vrp_payload | apply silent_raise].
  - intros payload. apply fail_fast_optimize.
Qed.

Lemma fail_fast_run_iteration scenario n i :
  fail_fast (run_iteration env scenario n i).
Proof.
  unfold run_iteration.
  apply fail_fast_bind; [apply fail_fast_optimize_fleet |].
  intros result. apply silent_fail_fast. silence.
Qed.

Lemma fail_fast_run_scenario n scenario acc :
  fail_fast (run_scenario env n scenario acc).
Proof.
  unfold run_scenario.
  apply fail_fast_bind; [apply silent_fail_fast, silent_print |].
  intros _.
  apply fail_fast_bind; [apply silent_fail_fast, silent_lift |].
  intros nv.
  apply fail_fast_bind; [apply silent_fail_fast, silent_lift |].
  intros nl.
  apply fail_fast_bind; [apply silent_fail_fast, silent_print |].
  intros _.
  apply fail_fast_bind.
  - apply fail_fast_collect. intros i. apply fail_fast_run_iteration.
  - intros rs. apply silent_fail_fast, silent_lift.
Qed.

Lemma fail_fast_run_scenarios n scenarios :
  forall acc, fail_fast (run_scenarios env n scenarios acc).
Proof.
  induction scenarios as [| sc rest IH]; intros acc; cbn [run_scenarios].
  - apply silent_fail_fast, silent_ret.
  - apply fail_fast_bind; [apply fail_fast_run_scenario |].
    intros acc'. apply IH.
Qed.

Lemma fail_fast_run_benchmark scenarios n :
  fail_fast (run_benchmark env scenarios n).
Proof.
  unfold run_benchmark.
  apply fail_fast_bind; [apply fail_fast_run_scenarios |].
  intros m. apply silent_fail_fast, silent_ret.
Qed.

End Propagation.

(** A failed POST, seen from the request log: if a request posted during
    [run_benchmark] fails (its POST raises, or its answer cannot be taken
    as a result), [run_benchmark] ends with that very exception. *)
Lemma run_benchmark_failed_post {R : PRNG} (env : Env)
      (scenarios : list dict) (iterations : Z) (w : World)
      (out : outcome report) (w' : World)
      (i : nat) (payload timeout : json) (e : exn) :
  run_benchmark env scenarios iterations w = (out, w') ->
  (List.length (requests w) <= i)%nat ->
  nth_error (requests w') i = Some (payload, timeout) ->
  failure_of (service env i payload timeout) = Some e ->
  out = Raise e.
Proof.
  intros E Hi Hn Hf.
  destruct (fail_fast_run_benchmark env scenarios iterations w _ _ E)
    as (new & Hr & H).
  rewrite Hr, nth_error_app2 in Hn by exact Hi.
  apply (H _ payload timeout e Hn).
  replace (List.length (requests w) + (i - List.length (requests w)))%nat
    with i by lia.
  exact Hf.
Qed.

Section Abort.

Context {R : PRNG}.
Variable env : Env.

(** What [run_scenario] does before its iterations: it works out the
    name and prints its two lines. *)
Definition scenario_header (scenario : dict) (acc : scenario_map) : M json :=
  let name :=
    Dict.get_default "name"
      (JStr ("scenario_" ++ string_of_nat (List.length acc))) scenario in
  print (PrintRunning name) ;;;
  nv <- lift (getitem (JObj scenario) "num_vehicles") ;;
  nl <- lift (getitem (JObj scenario) "num_locations") ;;
  print (PrintConfig nv nl) ;;;
  ret name.

(** [run_scenario] is its header, its iterations and the assignment of
    the entry, in this order. *)
Lemma run_scenario_header n scenario acc w :
  run_scenario env n scenario acc w
  = (name <- scenario_header scenario acc ;;
     scenario_results <-
       collect (Z.to_nat n) 0 (run_iteration env scenario n) ;;
     lift (store_scenario name (mkEntry scenario scenario_results) acc)) w.
Proof.
  unfold run_scenario, scenario_header, bind, print, lift, ret.
  cbn beta iota zeta.
  destruct (getitem (JObj scenario) "num_vehicles"); [| reflexivity].
  destruct (getitem (JObj scenario) "num_locations"); reflexivity.
Qed.

Lemma run_scenarios_app n xs ys :
  forall acc w,
    run_scenarios env n (xs ++ ys) acc w
    = (acc' <- run_scenarios env n xs acc ;; run_scenarios env n ys acc') w.
Proof.
  induction xs as [| x xs IH]; intros acc w; cbn [run_scenarios app].
  - reflexivity.
  - unfold bind.
    destruct (run_scenario env n x acc w) as [[acc1 | e] w1];
      [| reflexivity].
    rewrite IH. reflexivity.
Qed.

(** A loop whose body raises at its [k]-th round, after [k] rounds that
    went through, ends there, with the exception of the body. *)
Lemma collect_raises {A} (body : Z -> M A) (rest : nat) :
  forall k lo w rs w1 e w2,
    collect k lo body w = (Ok rs, w1) ->
    body (lo + Z.of_nat k) w1 = (Raise e, w2) ->
    collect (k + S rest) lo body w = (Raise e, w2).
Proof.
  induction k as [| k IH]; intros lo w rs w1 e w2 Hk Hb.
  - cbn [collect] in Hk. injection Hk as _ <-.
    replace (lo + Z.of_nat 0) with lo in Hb by lia.
    cbn [Nat.add collect]. now apply bind_raise.
  - cbn [collect] in Hk.
    apply bind_ok_inv in Hk. destruct Hk as (x & wx & Hx & Hk).
    apply bind_ok_inv in Hk. destruct Hk as (xs & wxs & Hxs & Hk).
    injection Hk as _ <-.
    replace (lo + Z.of_nat (S k)) with (lo + 1 + Z.of_nat k) in Hb by lia.
    cbn [Nat.add collect].
    rewrite (bind_ok _ _ _ _ _ Hx).
    apply bind_raise. exact (IH _ _ _ _ _ _ Hxs Hb).
Qed.

Lemma run_iteration_raises scenario n i w e w' :
  optimize_fleet env scenario w = (Raise e, w') ->
  run_iteration env scenario n i w = (Raise e, w').
Proof. intros H. unfold run_iteration. now apply bind_raise. Qed.

End Abort.

(** C7. If the submission of an iteration raises, [run_benchmark] ends
    there with that very exception, whatever raised it (the POST, the
    decoding of the answer, or the building of the payload before
    anything is posted) and whatever was recorded before: it is not
    caught, and no report comes back.  The iteration is any one of any
    scenario: the scenarios before it have run, the scenario's header
    has been printed, and [k] of its iterations have gone through. *)
Theorem run_benchmark_propagates {R : PRNG} (env : Env)
        (before : list dict) (scenario : dict) (after : list dict)
        (iterations : Z) (k : nat) (w : World)
        (acc : scenario_map) (name : json)
        (records : list iteration_record) (w1 w2 w3 w' : World) (e : exn) :
  run_scenarios env iterations before [] w = (Ok acc, w1) ->
  scenario_header scenario acc w1 = (Ok name, w2) ->
  (k < Z.to_nat iterations)%nat ->
  collect k 0 (run_iteration env scenario iterations) w2
    = (Ok records, w3) ->
  optimize_fleet env scenario w3 = (Raise e, w') ->
  run_benchmark env (before ++ scenario :: after) iterations w
    = (Raise e, w').
Proof.
  intros Hbefore Hheader Hk Hrounds Hfails.
  unfold run_benchmark. apply bind_raise.
  rewrite run_scenarios_app, (bind_ok _ _ _ _ _ Hbefore).
  cbn [run_scenarios]. apply bind_raise.
  rewrite run_scenario_header, (bind_ok _ _ _ _ _ Hheader).
  apply bind_raise.
  replace (Z.to_nat iterations)
    with (k + S (Z.to_nat iterations - S k))%nat by lia.
  apply (collect_raises _ _ _ _ _ _ _ _ _ Hrounds).
  now apply run_iteration_raises.
Qed.

Lemma run_benchmark_propagates_witness :
  (exists w',
     run_benchmark (Mock.failing_at 1 Mock.solved)
       [Mock.scenario None 1 2] 3 Mock.world0
     = (Raise (NetworkError "timeout"), w')) /\
  (exists w',
     run_benchmark (Mock.constant 200 Mock.solved)
       [Mock.scenario None 1 2;
        [("num_vehicles", JInt 1); ("num_locations", JStr "2")];
        Mock.scenario None 4 3] 2 Mock.world0
     = (Raise TypeError, w')).
Proof.
  split; eexists.
  - eapply (run_benchmark_propagates (Mock.failing_at 1 Mock.solved)
              [] (Mock.scenario None 1 2) [] 3 1%nat Mock.world0).
    + reflexivity.
    + evaluate_lhs. reflexivity.
    + cbn. lia.
    + evaluate_lhs. reflexivity.
    + evaluate_lhs. reflexivity.
  - eapply (run_benchmark_propagates (Mock.constant 200 Mock.solved)
              [Mock.scenario None 1 2]
              [("num_vehicles", JInt 1); ("num_locations", JStr "2")]
              [Mock.scenario None 4 3] 2 0%nat Mock.world0).
    + evaluate_lhs. reflexivity.
    + evaluate_lhs. reflexivity.
    + cbn. lia.
    + reflexivity.
    + evaluate_lhs. reflexivity.
Defined.


(* ===================================================================== *)
(** ** More on the cost matrix *)
(* ===================================================================== *)

(** With a seed other than 0, the matrix and the state in which the
    module-level generator is left are functions of the seed and the
    size alone: the clock and the state the generator was in before the
    call play no part. *)
Theorem generate_cost_matrix_reproducible {R : PRNG} (env1 env2 : Env)
        (num_locations : json) (s : Z) (w1 w2 : World) :
  s <> 0 ->
  fst (generate_cost_matrix env1 num_locations (Some s) w1)
    = fst (generate_cost_matrix env2 num_locations (Some s) w2) /\
  rng (snd (generate_cost_matrix env1 num_locations (Some s) w1))
    = rng (snd (generate_cost_matrix env2 num_locations (Some s) w2)).
Proof.
  intros Hs. unfold generate_cost_matrix, seed_generator.
  apply Z.eqb_neq in Hs. rewrite Hs.
  unfold bind, seed. cbn beta iota.
  apply rng_only_for_range; [| reflexivity].
  intros i. apply rng_only_cost_row.
Qed.

Lemma generate_cost_matrix_reproducible_witness :
  fst (generate_cost_matrix (Mock.frozen 1) (JInt 3) (Some 7) Mock.world0)
    = fst (generate_cost_matrix (Mock.frozen 2) (JInt 3) (Some 7)
             (mkWorld (R := Lcg.prng) 99 5 [] [])) /\
  rng (snd (generate_cost_matrix (Mock.frozen 1) (JInt 3) (Some 7)
              Mock.world0))
    = rng (snd (generate_cost_matrix (Mock.frozen 2) (JInt 3) (Some 7)
                  (mkWorld (R := Lcg.prng) 99 5 [] []))).
Proof.
  apply (generate_cost_matrix_reproducible (Mock.frozen 1) (Mock.frozen 2)
           (JInt 3) 7 Mock.world0 (mkWorld (R := Lcg.prng) 99 5 [] [])).
  lia.
Defined.

(** A size that is zero or negative gives the empty matrix, not an
    error. *)
Theorem generate_cost_matrix_nonpositive {R : PRNG} (env : Env) (n : Z)
        (seed_arg : option Z) (w : World) :
  n <= 0 ->
  fst (generate_cost_matrix env (JInt n) seed_arg w) = Ok [].
Proof.
  intros Hn. unfold generate_cost_matrix.
  assert (H : returns
                (seed_generator env seed_arg ;;;
                 for_range (JInt n) (cost_row 5 100 (JInt n)))
                (fun m => m = [])).
  { eapply returns_bind; [apply returns_seed_generator |].
    intros _ _. eapply returns_weaken.
    - apply (returns_for_range n _ (fun _ _ => True)). intros i.
      unfold cost_row. eapply returns_weaken.
      + apply (returns_for_range n _ (fun _ _ => True)). intros j.
        destruct (Z.eqb i j); [now apply returns_ret |].
        eapply returns_weaken; [apply (returns_randint 5 100); lia | auto].
      + auto.
    - intros m [Hlen _]. destruct m; [reflexivity |].
      cbn in Hlen. lia. }
  destruct (H w) as (m & w' & E & ->). now rewrite E.
Qed.

Lemma generate_cost_matrix_nonpositive_witness :
  fst (generate_cost_matrix (Mock.frozen 1) (JInt (-2)) None Mock.world0)
    = Ok [].
Proof.
  apply (generate_cost_matrix_nonpositive (Mock.frozen 1) (-2) None
           Mock.world0).
  lia.
Defined.

(** A size that is no integer (a string, a float, [None], a list) makes
    the call raise [TypeError], whatever the seed argument is, but only
    after the module-level generator has been seeded anew: the failed
    call still changes the random stream of the process.  The new seed
    is the one supplied when there is one other than 0; when there is
    none the clock is read, once, and the seed taken from it is below
    [2 ^ 32]. *)
Theorem generate_cost_matrix_bad_size {R : PRNG} (env : Env) (v : json)
        (seed_arg : option Z) (w : World) :
  as_index v = Raise TypeError ->
  exists a w',
    generate_cost_matrix env v seed_arg w = (Raise TypeError, w') /\
    rng w' = rng_seed a /\
    requests w' = requests w /\
    stdout w' = stdout w /\
    match seed_arg with
    | Some s =>
        if Z.eqb s 0 then 0 <= a < 2 ^ 32 /\ ticks w' = S (ticks w)
        else a = s /\ ticks w' = ticks w
    | None => 0 <= a < 2 ^ 32 /\ ticks w' = S (ticks w)
    end.
Proof.
  intros Hv. unfold generate_cost_matrix, seed_generator, for_range.
  rewrite Hv.
  destruct seed_arg as [s |]; [destruct (Z.eqb s 0) |];
    eexists _, _; (split; [reflexivity |]); cbn [rng requests stdout ticks];
    repeat (split; [reflexivity |]);
    try (split; [apply Z.mod_pos_bound; reflexivity | reflexivity]).
  split; reflexivity.
Qed.

Lemma generate_cost_matrix_bad_size_witness :
  exists a w',
    generate_cost_matrix (Mock.frozen 1) (JStr "3") None Mock.world0
      = (Raise TypeError, w') /\
    rng w' = rng_seed a /\
    requests w' = requests Mock.world0 /\
    stdout w' = stdout Mock.world0 /\
    0 <= a < 2 ^ 32 /\ ticks w' = S (ticks Mock.world0).
Proof.
  exact (generate_cost_matrix_bad_size (Mock.frozen 1) (JStr "3") None
           Mock.world0 eq_refl).
Defined.

(* ===================================================================== *)
(** ** More on the payload *)
(* ===================================================================== *)

(** [payload["cost_matrix_data"]["data"]["0"]] *)
Definition cost_matrix_of (payload : json) : option json :=
  match field "cost_matrix_data" "data" payload with
  | Some (JObj d) => Dict.get "0" d
  | _ => None
  end.

(** [v if v is not None else default] *)
Definition override_or (v default : json) : json :=
  match v with
  | JNull => default
  | _ => v
  end.

Lemma override_or_given v default :
  v <> JNull -> override_or v default = v.
Proof. intros H. destruct v; try reflexivity. contradiction. Qed.

Lemma nth_all_repeat {A} (x : A) (l : list A) :
  (forall k y, nth_error l k = Some y -> y = x) ->
  l = repeat x (List.length l).
Proof.
  induction l as [| a l IH]; intros H; cbn; [reflexivity |].
  rewrite (H 0%nat a eq_refl). f_equal. apply IH.
  intros k y Hk. exact (H (S k) y Hk).
Qed.

Section PayloadShape.

Context {R : PRNG}.
Variable env : Env.

Lemma returns_override (v : json) (gen : M json) (Q : json -> Prop) :
  (v = JNull -> returns gen Q) ->
  (v <> JNull -> Q v) ->
  returns (match v with JNull => gen | _ => ret v end) Q.
Proof.
  intros Hg Hv.
  destruct v; try (apply returns_ret, Hv; discriminate).
  now apply Hg.
Qed.

(** The matrix, for any integer size. *)
Definition cost_matrix_ok (lo hi : Z) (n : Z) (m : list (list Z)) : Prop :=
  List.length m = Z.to_nat n /\
  forall i row, nth_error m i = Some row ->
    List.length row = Z.to_nat n /\
    forall j x, nth_error row j = Some x ->
      if Nat.eqb i j then x = 0 else lo <= x <= hi.

Lemma returns_cost_matrix_any n seed_arg :
  returns (generate_cost_matrix env (JInt n) seed_arg)
          (cost_matrix_ok 5 100 n).
Proof.
  unfold generate_cost_matrix.
  eapply returns_bind; [apply returns_seed_generator |].
  intros _ _. eapply returns_weaken.
  - apply (returns_for_range n _
             (fun i row =>
                List.length row = Z.to_nat n /\
                forall j x, nth_error row j = Some x ->
                  if Z.eqb i (Z.of_nat j) then x = 0 else 5 <= x <= 100)).
    intros i. unfold cost_row.
    apply (returns_for_range n _
             (fun j x => if Z.eqb i j then x = 0 else 5 <= x <= 100)).
    intros j. destruct (Z.eqb i j);
      [now apply returns_ret | apply returns_randint; lia].
  - intros m [Hlen Hnth]. split; [exact Hlen |].
    intros i row Hrow. destruct (Hnth i row Hrow) as [Hl Hc].
    split; [exact Hl |]. intros j x Hx. specialize (Hc j x Hx).
    destruct (Nat.eqb_spec i j) as [-> | Hne].
    + now rewrite Z.eqb_refl in Hc.
    + destruct (Z.eqb_spec (Z.of_nat i) (Z.of_nat j)); [lia | exact Hc].
Qed.

(** Everything [build_vrp_payload] puts in the payload, for integer
    [num_vehicles] and [num_locations] and any other arguments. *)
Definition payload_ok (nv nl : Z) (vc tl tw dem st : json) (payload : json)
  : Prop :=
  exists cm ds ss,
    cost_matrix_ok 5 100 nl cm /\
    (dem = JNull ->
       List.length ds = Z.to_nat (nl - 1) /\
       Forall (fun d => 5 <= d <= 20) ds) /\
    (st = JNull ->
       List.length ss = Z.to_nat (nl - 1) /\
       Forall (fun d => 5 <= d <= 15) ss) /\
    cost_matrix_of payload = Some (jmatrix cm) /\
    field "fleet_data" "vehicle_locations" payload
      = Some (JArr (repeat (jints [0; 0]) (Z.to_nat nv))) /\
    field "fleet_data" "capacities" payload
      = Some (JArr [JArr (repeat vc (Z.to_nat nv))]) /\
    field "fleet_data" "vehicle_time_windows" payload
      = Some (JArr (repeat (jints [0; 480]) (Z.to_nat nv))) /\
    field "task_data" "task_locations" payload
      = Some (jints (zrange 1 (Z.to_nat (nl - 1)))) /\
    field "task_data" "demand" payload
      = Some (JArr [override_or dem (jints ds)]) /\
    field "task_data" "task_time_windows" payload
      = Some (override_or tw
                (JArr (repeat (jints [0; 480]) (Z.to_nat (nl - 1))))) /\
    field "task_data" "service_times" payload
      = Some (override_or st (jints ss)) /\
    field "solver_config" "time_limit" payload = Some tl.

Lemma returns_draws n lo hi :
  lo <= hi ->
  returns (for_range (JInt n) (fun _ => randint lo hi))
    (fun ds => List.length ds = Z.to_nat n /\
               Forall (fun d => lo <= d <= hi) ds).
Proof.
  intros Hle. eapply returns_weaken.
  - apply (returns_for_range n _ (fun _ d => lo <= d <= hi)).
    intros _. now apply returns_randint.
  - intros ds [Hlen Hnth]. split; [exact Hlen |].
    apply Forall_forall. intros d Hin.
    apply In_nth_error in Hin. destruct Hin as [k Hk].
    exact (Hnth k d Hk).
Qed.

Lemma returns_copies n (x : json) :
  returns (for_range (JInt n) (fun _ => ret x))
    (fun l => l = repeat x (Z.to_nat n)).
Proof.
  eapply returns_weaken.
  - apply (returns_for_range n _ (fun _ y => y = x)).
    intros _. now apply returns_ret.
  - intros l [Hlen Hnth]. rewrite <- Hlen. apply nth_all_repeat.
    intros k y Hk. exact (Hnth k y Hk).
Qed.

Lemma returns_payload nv nl vc tl tw dem st :
  returns (build_vrp_payload env (JInt nv) (JInt nl) vc tl tw dem st)
          (payload_ok nv nl vc tl tw dem st).
Proof.
  unfold build_vrp_payload.
  eapply returns_bind; [apply returns_cost_matrix_any |].
  intros cm Hcm. cbn [py_sub_int].
  apply (returns_bind _ _ (fun a => a = JInt (nl - 1)));
    [now apply returns_lift |]. intros ? ->.
  apply (returns_bind _ _
           (fun d => exists ds,
                d = override_or dem (jints ds) /\
                (dem = JNull ->
                   List.length ds = Z.to_nat (nl - 1) /\
                   Forall (fun d => 5 <= d <= 20) ds))).
  { apply returns_override.
    - intros ->. eapply returns_bind; [apply (returns_draws _ 5 20); lia |].
      intros ds Hds. apply returns_ret. exists ds. split; [reflexivity |].
      intros _. exact Hds.
    - intros Hne. exists []. split; [| contradiction].
      destruct dem; try reflexivity. contradiction. }
  intros ? (ds & -> & Hds).
  apply (returns_bind _ _
           (fun d => exists ss,
                d = override_or st (jints ss) /\
                (st = JNull ->
                   List.length ss = Z.to_nat (nl - 1) /\
                   Forall (fun d => 5 <= d <= 15) ss))).
  { apply returns_override.
    - intros ->. eapply returns_bind; [apply (returns_draws _ 5 15); lia |].
      intros ss Hss. apply returns_ret. exists ss. split; [reflexivity |].
      intros _. exact Hss.
    - intros Hne. exists []. split; [| contradiction].
      destruct st; try reflexivity. contradiction. }
  intros ? (ss & -> & Hss).
  apply (returns_bind _ _
           (fun d => d = override_or tw
                          (JArr (repeat (jints [0; 480])
                                        (Z.to_nat (nl - 1)))))).
  { apply returns_override.
    - intros ->. eapply returns_bind; [apply returns_copies |].
      intros ws ->. now apply returns_ret.
    - intros Hne. destruct tw; try reflexivity. contradiction. }
  intros ? ->.
  eapply returns_bind; [apply returns_copies |]. intros ? ->.
  cbn [as_index].
  apply (returns_bind _ _ (fun a => a = nv)); [now apply returns_lift |].
  intros ? ->.
  eapply returns_bind; [apply returns_copies |]. intros ? ->.
  apply (returns_bind _ _ (fun a => a = nl)); [now apply returns_lift |].
  intros ? ->.
  apply returns_ret. exists cm, ds, ss.
  split; [exact Hcm |]. split; [exact Hds |]. split; [exact Hss |].
  repeat split.
Qed.

End PayloadShape.






(** A [num_locations] that is no integer is a [TypeError]. *)
Theorem build_vrp_payload_bad_locations {R : PRNG} (env : Env)
        (num_vehicles num_locations : json)
        (vehicle_capacity time_limit time_windows demands service_times : json)
        (w : World) :
  as_index num_locations = Raise TypeError ->
  fst (build_vrp_payload env num_vehicles num_locations vehicle_capacity
         time_limit time_windows demands service_times w)
    = Raise TypeError.
Proof.
  intros Hv. unfold build_vrp_payload, generate_cost_matrix, for_range.
  rewrite Hv. unfold seed_generator, bind, lift, time, seed. reflexivity.
Qed.

Lemma build_vrp_payload_bad_locations_witness :
  fst (build_vrp_payload (Mock.frozen 1) (JInt 2) (JFloat 3) (JInt 100)
         (JInt 30) JNull JNull JNull Mock.world0)
    = Raise TypeError.
Proof.
  apply (build_vrp_payload_bad_locations (Mock.frozen 1) (JInt 2) (JFloat 3)
           (JInt 100) (JInt 30) JNull JNull JNull Mock.world0).
  reflexivity.
Defined.

(* ===================================================================== *)
(** ** More on submitting *)
(* ===================================================================== *)

(** Without an explicit timeout, a payload that has no [solver_config],
    or whose [solver_config] has no [time_limit], is posted with the
    timeout 150 (the default limit 30 plus 120). *)
Theorem effective_timeout_default (d : dict) :
  Dict.get "solver_config" d = None \/
  (exists sc, Dict.get "solver_config" d = Some (JObj sc) /\
              Dict.get "time_limit" sc = None) ->
  effective_timeout (JObj d) JNull = Ok (JInt 150).
Proof.
  unfold effective_timeout, Dict.get_default.
  intros [Hnone | (sc & Hsc & Htl)].
  - rewrite Hnone. reflexivity.
  - rewrite Hsc, Htl. reflexivity.
Qed.

Lemma effective_timeout_default_witness :
  effective_timeout (JObj [("solver_config", JObj [("seed", JInt 1)])]) JNull
    = Ok (JInt 150).
Proof.
  apply (effective_timeout_default [("solver_config", JObj [("seed", JInt 1)])]).
  right. exists [("seed", JInt 1)]. split; reflexivity.
Defined.

(** A [time_limit] that is present but is no number (a string, a list,
    or an explicit [None]) does not fall back to the default: the sum
    with 120 raises [TypeError], and nothing is posted. *)
Theorem optimize_bad_time_limit {R : PRNG} (env : Env) (payload v : json)
        (w : World) :
  field "solver_config" "time_limit" payload = Some v ->
  py_add_int v 120 = Raise TypeError ->
  optimize env payload JNull w = (Raise TypeError, w).
Proof.
  intros Hf Hv. unfold field in Hf.
  destruct payload as [| | | | | | d]; try discriminate.
  unfold optimize, effective_timeout, Dict.get_default.
  destruct (Dict.get "solver_config" d) as [[| | | | | | sc] |];
    try discriminate.
  rewrite Hf, Hv. reflexivity.
Qed.

Lemma optimize_bad_time_limit_witness :
  optimize (Mock.constant 200 Mock.solved)
    (JObj [("solver_config", JObj [("time_limit", JNull)])]) JNull
    Mock.world0
    = (Raise TypeError, Mock.world0).
Proof.
  apply (optimize_bad_time_limit (Mock.constant 200 Mock.solved)
           (JObj [("solver_config", JObj [("time_limit", JNull)])]) JNull
           Mock.world0).
  - reflexivity.
  - reflexivity.
Defined.

(** A submission that fails is tried once: when the POST raises, or its
    answer is no JSON, or is JSON but no object, [optimize] raises the
    matching exception, and the request log has grown by this one
    request. *)
Theorem optimize_fails_once {R : PRNG} (env : Env) (payload timeout t : json)
        (w : World) (e : exn) :
  effective_timeout payload timeout = Ok t ->
  failure_of (service env (List.length (requests w)) payload t) = Some e ->
  fst (optimize env payload timeout w) = Raise e /\
  requests (snd (optimize env payload timeout w))
    = (requests w ++ [(payload, t)])%list.
Proof.
  intros Ht Hf. split; [| now apply optimize_requests].
  unfold optimize. rewrite Ht.
  unfold bind, lift, time, post, ret, raise. cbn.
  destruct (service env (List.length (requests w)) payload t)
    as [e1 | code [body |]]; cbn in Hf |- *.
  - congruence.
  - destruct body; cbn; congruence.
  - congruence.
Qed.

Lemma optimize_fails_once_witness :
  fst (optimize (Mock.failing_at 0 Mock.solved) (JObj []) JNull Mock.world0)
    = Raise (NetworkError "timeout") /\
  requests (snd (optimize (Mock.failing_at 0 Mock.solved) (JObj []) JNull
                   Mock.world0))
    = [(JObj [], JInt 150)].
Proof.
  apply (optimize_fails_once (Mock.failing_at 0 Mock.solved) (JObj []) JNull
           (JInt 150) Mock.world0 (NetworkError "timeout")).
  - reflexivity.
  - reflexivity.
Defined.

Lemma dict_keys_set k v d :
  Dict.keys (Dict.set k v d)
    = if Dict.mem k d then Dict.keys d else (Dict.keys d ++ [k])%list.
Proof.
  unfold Dict.mem, Dict.keys.
  induction d as [| [k0 v0] d IH]; cbn; [reflexivity |].
  destruct (String.eqb_spec k k0) as [-> | Hne]; cbn; [reflexivity |].
  rewrite IH. destruct (Dict.get k d); reflexivity.
Qed.

(** The keys of a body survive [optimize] in their order; [_metadata]
    goes last when the body had none, and takes the place of the body's
    own [_metadata] when it had one. *)
Theorem optimize_keeps_keys {R : PRNG} (env : Env) (payload timeout t : json)
        (w : World) (status_code : Z) (body : dict) :
  effective_timeout payload timeout = Ok t ->
  service env (List.length (requests w)) payload t
    = PostResponds status_code (Some (JObj body)) ->
  exists result w',
    optimize env payload timeout w = (Ok result, w') /\
    Dict.keys result
      = if Dict.mem "_metadata" body then Dict.keys body
        else (Dict.keys body ++ ["_metadata"])%list.
Proof.
  intros Ht Hs. eexists _, _.
  split; [apply (optimize_responds env _ _ _ _ _ _ Ht Hs) |].
  apply dict_keys_set.
Qed.

Lemma optimize_keeps_keys_witness :
  exists result w',
    optimize (Mock.constant 200
                (JObj [("_metadata", JStr "theirs"); ("response", JNull)]))
      (JObj []) JNull Mock.world0 = (Ok result, w') /\
    Dict.keys result
      = if Dict.mem "_metadata"
             [("_metadata", JStr "theirs"); ("response", JNull)]
        then Dict.keys [("_metadata", JStr "theirs"); ("response", JNull)]
        else (Dict.keys [("_metadata", JStr "theirs"); ("response", JNull)]
              ++ ["_metadata"])%list.
Proof.
  apply (optimize_keeps_keys
           (Mock.constant 200
              (JObj [("_metadata", JStr "theirs"); ("response", JNull)]))
           (JObj []) JNull (JInt 150) Mock.world0 200).
  - reflexivity.
  - reflexivity.
Defined.

(* ===================================================================== *)
(** ** More on [optimize_fleet] *)
(* ===================================================================== *)

(** Keywords that [optimize_fleet] and [build_vrp_payload] can bind. *)
Definition keywords_ok (kw : dict) : Prop :=
  forall k, In k (Dict.keys kw) -> In k build_vrp_payload_parameters.

Lemma keys_without_subset ks d k :
  In k (Dict.keys (Dict.without ks d)) -> In k (Dict.keys d).
Proof.
  unfold Dict.keys, Dict.without. intros H.
  apply in_map_iff in H. destruct H as (p & <- & Hp).
  apply filter_In in Hp. apply in_map. apply Hp.
Qed.

Lemma keywords_ok_call kw :
  keywords_ok kw ->
  forallb (is_in build_vrp_payload_parameters)
          (Dict.keys (Dict.without optimize_fleet_parameters kw)) = true.
Proof.
  intros Hok. apply forallb_forall. intros k Hk.
  apply keys_without_subset in Hk. apply Hok in Hk.
  unfold is_in. apply existsb_exists. exists k.
  split; [exact Hk | apply String.eqb_refl].
Qed.

Lemma effective_timeout_of_field payload t :
  field "solver_config" "time_limit" payload = Some (JInt t) ->
  effective_timeout payload JNull = Ok (JInt (t + 120)).
Proof.
  intros Hf. unfold field in Hf.
  destruct payload as [| | | | | | d]; try discriminate.
  unfold effective_timeout, Dict.get_default.
  destruct (Dict.get "solver_config" d) as [[| | | | | | sc] |];
    try discriminate.
  now rewrite Hf.
Qed.

Section Fleet.

Context {R : PRNG}.
Variable env : Env.

Lemma optimize_fleet_bound kw nv nl :
  keywords_ok kw ->
  Dict.get "num_vehicles" kw = Some nv ->
  Dict.get "num_locations" kw = Some nl ->
  optimize_fleet env kw =
    (payload <-
       build_vrp_payload env nv nl
         (Dict.get_default "vehicle_capacity" (JInt 100) kw)
         (Dict.get_default "time_limit" (JInt 30) kw)
         (Dict.get_default "time_windows" JNull
            (Dict.without optimize_fleet_parameters kw))
         (Dict.get_default "demands" JNull
            (Dict.without optimize_fleet_parameters kw))
         (Dict.get_default "service_times" JNull
            (Dict.without optimize_fleet_parameters kw)) ;;
     optimize env payload JNull).
Proof.
  intros Hok Hnv Hnl. unfold optimize_fleet, call_build_vrp_payload.
  now rewrite Hnv, Hnl, (keywords_ok_call kw Hok).
Qed.

End Fleet.



(* ===================================================================== *)
(** ** More on the runner: a run that goes through *)
(* ===================================================================== *)

(** The name given to a scenario that has none. *)
Definition default_name (k : nat) : json :=
  JStr ("scenario_" ++ string_of_nat k).

(** A service that answers every POST with some JSON object. *)
Definition answers (env : Env) : Prop :=
  forall k payload timeout,
    exists code body,
      service env k payload timeout = PostResponds code (Some (JObj body)).

(** A scenario the runner can run: keywords that bind, integer sizes,
    an integer time limit if any. *)
Definition runnable (scenario : dict) : Prop :=
  keywords_ok scenario /\
  (exists nv, Dict.get "num_vehicles" scenario = Some (JInt nv)) /\
  (exists nl, Dict.get "num_locations" scenario = Some (JInt nl)) /\
  (exists t, Dict.get_default "time_limit" (JInt 30) scenario = JInt t).

Lemma string_of_nat_inj a b : string_of_nat a = string_of_nat b -> a = b.
Proof.
  unfold string_of_nat. intros H.
  apply (f_equal NilEmpty.uint_of_string) in H.
  rewrite !NilEmpty.usu in H. injection H as H.
  apply (f_equal Nat.of_uint) in H.
  now rewrite !DecimalNat.Unsigned.of_to in H.
Qed.

Lemma default_name_fresh a b :
  a <> b -> key_eqb (default_name a) (default_name b) = false.
Proof.
  intros Hne. unfold default_name. cbn [key_eqb].
  apply String.eqb_neq. intros H. apply Hne.
  cbn in H. injection H as H. now apply string_of_nat_inj.
Qed.

Lemma scenarios_set_fresh name e (m : scenario_map) :
  (forall p, In p m -> key_eqb name (fst p) = false) ->
  scenarios_set name e m = (m ++ [(name, e)])%list.
Proof.
  induction m as [| [k v] m IH]; intros H; cbn; [reflexivity |].
  pose proof (H (k, v) (or_introl eq_refl)) as Hk. cbn [fst] in Hk.
  rewrite Hk. f_equal.
  apply IH. intros p Hp. apply H. now right.
Qed.

Lemma zrange_of_nth lo (l : list Z) :
  (forall k x, nth_error l k = Some x -> x = lo + Z.of_nat k) ->
  l = zrange lo (List.length l).
Proof.
  revert lo. induction l as [| a l IH]; intros lo H; cbn; [reflexivity |].
  rewrite (H 0%nat a eq_refl), Z.add_0_r. f_equal.
  apply IH. intros k x Hk. rewrite (H (S k) x Hk). lia.
Qed.

Lemma get_default_absent k default kw :
  Dict.get k kw = None -> Dict.get_default k default kw = default.
Proof. intros H. unfold Dict.get_default. now rewrite H. Qed.

Lemma keywords_ok_no_name scenario :
  keywords_ok scenario -> Dict.get "name" scenario = None.
Proof.
  intros Hok. destruct (Dict.get "name" scenario) eqn:E; [| reflexivity].
  assert (Hin : In "name" (Dict.keys scenario)).
  { apply dict_mem_keys. unfold Dict.mem. now rewrite E. }
  apply Hok in Hin. cbn in Hin.
  repeat (destruct Hin as [Hin | Hin]; [discriminate |]). contradiction.
Qed.

Section GoodRun.

Context {R : PRNG}.
Variable env : Env.
Hypothesis service_answers : answers env.

Lemma returns_optimize_fleet scenario :
  runnable scenario ->
  returns (optimize_fleet env scenario)
    (fun result =>
       exists elapsed code body,
         result = Dict.set "_metadata" (metadata elapsed code) body).
Proof.
  intros (Hok & (nv & Hnv) & (nl & Hnl) & (t & Ht)) w.
  rewrite (optimize_fleet_bound env scenario _ _ Hok Hnv Hnl), Ht.
  match goal with
  | |- context [bind (build_vrp_payload env _ _ ?vc _ ?tw ?dem ?st)] =>
      destruct (returns_payload env nv nl vc (JInt t) tw dem st w)
        as (payload & w1 & E & cm & ds & ss & H)
  end.
  assert (Hf : field "solver_config" "time_limit" payload = Some (JInt t))
    by tauto.
  rewrite (bind_ok _ _ _ _ _ E).
  destruct (service_answers (List.length (requests w1)) payload
              (JInt (t + 120))) as (code & body & Hs).
  rewrite (optimize_responds env payload JNull (JInt (t + 120)) w1 code body
             (effective_timeout_of_field payload t Hf) Hs).
  eexists _, _. split; [reflexivity |]. eauto.
Qed.

Lemma returns_run_iteration scenario n i :
  runnable scenario ->
  returns (run_iteration env scenario n i) (fun r => iteration r = i + 1).
Proof.
  intros Hrun w.
  destruct (returns_optimize_fleet scenario Hrun w)
    as (result & w1 & E & elapsed & code & body & ->).
  rewrite (run_iteration_ok env _ n i _ _ _ _ _ E).
  eexists _, _. split; reflexivity.
Qed.

Lemma returns_run_scenario n scenario acc :
  runnable scenario ->
  (forall p, In p acc ->
     key_eqb (default_name (List.length acc)) (fst p) = false) ->
  returns (run_scenario env n scenario acc)
    (fun acc' =>
       exists rs,
         acc' = (acc ++ [(default_name (List.length acc),
                          mkEntry scenario rs)])%list /\
         map iteration rs = zrange 1 (Z.to_nat n)).
Proof.
  intros Hrun Hfresh. unfold run_scenario.
  destruct Hrun as (Hok & (nv & Hnv) & (nl & Hnl) & Ht).
  cbv zeta.
  rewrite !(get_default_absent "name" _ scenario
              (keywords_ok_no_name _ Hok)).
  eapply returns_bind; [apply returns_print |]. intros _ _.
  cbn [getitem]. rewrite Hnv, Hnl.
  apply (returns_bind _ _ (fun a => a = JInt nv)); [now apply returns_lift |].
  intros ? ->.
  apply (returns_bind _ _ (fun a => a = JInt nl)); [now apply returns_lift |].
  intros ? ->.
  eapply returns_bind; [apply returns_print |]. intros _ _.
  eapply returns_bind.
  { apply (returns_collect _ (fun i r => iteration r = i + 1)).
    intros i. apply returns_run_iteration.
    split; [exact Hok |]. eauto. }
  intros rs [Hlen Hnth]. unfold store_scenario. cbn [hashable].
  apply returns_lift. exists rs. split.
  - apply (scenarios_set_fresh (default_name (List.length acc))).
    exact Hfresh.
  - rewrite <- Hlen, <- (length_map iteration). apply zrange_of_nth.
    intros k x Hk. rewrite nth_error_map in Hk.
    destruct (nth_error rs k) as [r |] eqn:Hr; [| discriminate].
    injection Hk as <-. rewrite (Hnth k r Hr). lia.
Qed.

(** The keys of the accumulator are the default names, in order. *)
Definition named_in_order (acc : scenario_map) : Prop :=
  map fst acc = map default_name (seq 0 (List.length acc)).

Lemma named_in_order_fresh acc :
  named_in_order acc ->
  forall p, In p acc ->
    key_eqb (default_name (List.length acc)) (fst p) = false.
Proof.
  intros Hacc p Hp. apply (in_map fst) in Hp. rewrite Hacc in Hp.
  apply in_map_iff in Hp. destruct Hp as (k & <- & Hk).
  apply in_seq in Hk. apply default_name_fresh. lia.
Qed.

Lemma returns_run_scenarios n scenarios :
  Forall runnable scenarios ->
  forall acc,
    named_in_order acc ->
    returns (run_scenarios env n scenarios acc)
      (fun final =>
         exists entries,
           final = (acc ++ entries)%list /\
           map fst entries
             = map default_name
                   (seq (List.length acc) (List.length scenarios)) /\
           map (fun e => config (snd e)) entries = scenarios /\
           Forall (fun e => map iteration (results (snd e))
                            = zrange 1 (Z.to_nat n)) entries).
Proof.
  induction 1 as [| sc rest Hsc Hrest IH]; intros acc Hacc;
    cbn [run_scenarios].
  - apply returns_ret. exists []. rewrite app_nil_r.
    repeat split; constructor.
  - eapply returns_bind.
    { apply (returns_run_scenario n sc acc Hsc).
      now apply named_in_order_fresh. }
    intros acc' (rs & -> & Hrs).
    eapply returns_weaken.
    + apply IH. unfold named_in_order in *.
      rewrite map_app, length_app, Hacc. cbn [map List.length].
      rewrite Nat.add_1_r, seq_S, map_app. reflexivity.
    + intros final (entries & -> & Hk & Hc & Hr).
      exists ((default_name (List.length acc), mkEntry sc rs) :: entries).
      rewrite <- app_assoc. split; [reflexivity |].
      rewrite length_app in Hk. cbn [List.length] in Hk.
      rewrite Nat.add_1_r in Hk.
      cbn [map List.length seq fst snd config results].
      rewrite Hk, Hc. repeat split. now constructor.
Qed.

End GoodRun.



(* ===================================================================== *)
(** ** More on the runner: requests *)
(* ===================================================================== *)



Section RequestCount.

Context {R : PRNG}.
Variable env : Env.

(** [posts n m]: when [m] returns, it has posted [n] requests. *)
Definition posts {A} (n : nat) (m : M A) : Prop :=
  forall w a w',
    m w = (Ok a, w') ->
    List.length (requests w') = (List.length (requests w) + n)%nat.

Lemma silent_posts {A} (m : M A) : silent m -> posts 0 m.
Proof.
  intros Hm w a w' E. specialize (Hm w). rewrite E in Hm. cbn in Hm.
  rewrite Hm. lia.
Qed.

Lemma posts_bind {A B} n k (m : M A) (f : A -> M B) :
  posts n m -> (forall a, posts k (f a)) -> posts (n + k) (bind m f).
Proof.
  intros Hm Hf w b w' E. apply bind_ok_inv in E.
  destruct E as (a & w1 & E1 & E2).
  rewrite (Hf a w1 b w' E2), (Hm w a w1 E1). lia.
Qed.

Lemma posts_after_silent {A B} k (m : M A) (f : A -> M B) :
  silent m -> (forall a, posts k (f a)) -> posts k (bind m f).
Proof.
  intros Hm Hf. apply (posts_bind 0 k); [now apply silent_posts | exact Hf].
Qed.

Lemma posts_then_silent {A B} n (m : M A) (f : A -> M B) :
  posts n m -> (forall a, silent (f a)) -> posts n (bind m f).
Proof.
  intros Hm Hf w b w' E.
  rewrite (posts_bind n 0 m f Hm (fun a => silent_posts _ (Hf a)) w b w' E).
  lia.
Qed.

Lemma posts_collect {A} c (body : Z -> M A) :
  (forall i, posts c (body i)) ->
  forall n lo, posts (n * c) (collect n lo body).
Proof.
  intros Hbody. induction n as [| n IH]; intros lo; cbn [collect].
  - apply silent_posts, silent_ret.
  - replace (S n * c)%nat with (c + (n * c + 0))%nat by lia.
    apply posts_bind; [apply Hbody |]. intros x.
    apply posts_bind; [apply IH |]. intros xs.
    apply silent_posts, silent_ret.
Qed.

Lemma posts_optimize payload timeout : posts 1 (optimize env payload timeout).
Proof.
  intros w a w' E.
  destruct (effective_timeout payload timeout) as [t | e] eqn:Et.
  - pose proof (optimize_requests env payload timeout t w Et) as H.
    rewrite E in H. cbn [snd] in H. rewrite H, length_app. reflexivity.
  - unfold optimize in E. rewrite Et in E. discriminate.
Qed.

Lemma posts_optimize_fleet kw : posts 1 (optimize_fleet env kw).
Proof.
  unfold optimize_fleet.
  destruct (Dict.get "num_vehicles" kw);
    [| intros w a w' E; discriminate].
  destruct (Dict.get "num_locations" kw);
    [| intros w a w' E; discriminate].
  apply posts_after_silent.
  - unfold call_build_vrp_payload.
    destruct (forallb _ _);
      [apply silent_build_vrp_payload | apply silent_raise].
  - intros payload. apply posts_optimize.
Qed.

Lemma silent_run_iteration_tail n i (result : dict) :
  silent (meta <- lift (getitem (JObj result) "_metadata") ;;
          rt <- lift (getitem meta "response_time_seconds") ;;
          print (PrintIteration (i + 1) n rt) ;;;
          ret (mkRecord (i + 1) rt (Dict.mem "response" result))).
Proof.
  apply silent_bind; [apply silent_lift |]. intros meta.
  apply silent_bind; [apply silent_lift |]. intros rt.
  apply silent_bind; [apply silent_print |]. intros _.
  apply silent_ret.
Qed.

Lemma posts_run_iteration scenario n i :
  posts 1 (run_iteration env scenario n i).
Proof.
  unfold run_iteration. apply posts_then_silent.
  - apply posts_optimize_fleet.
  - intros result. apply silent_run_iteration_tail.
Qed.

Lemma posts_run_scenario n scenario acc :
  posts (Z.to_nat n) (run_scenario env n scenario acc).
Proof.
  unfold run_scenario. cbv zeta.
  apply posts_after_silent; [apply silent_print |]. intros _.
  apply posts_after_silent; [apply silent_lift |]. intros nv.
  apply posts_after_silent; [apply silent_lift |]. intros nl.
  apply posts_after_silent; [apply silent_print |]. intros _.
  apply posts_then_silent.
  - intros w0 a w0' E.
    rewrite (posts_collect 1 _ (posts_run_iteration scenario n)
               (Z.to_nat n) 0 w0 a w0' E).
    lia.
  - intros rs. apply silent_lift.
Qed.

Lemma posts_run_scenarios n scenarios :
  forall acc,
    posts (List.length scenarios * Z.to_nat n)
          (run_scenarios env n scenarios acc).
Proof.
  induction scenarios as [| sc rest IH]; intros acc; cbn [run_scenarios].
  - apply silent_posts, silent_ret.
  - cbn [List.length Nat.mul]. apply posts_bind.
    + apply posts_run_scenario.
    + intros acc'. apply IH.
Qed.

End RequestCount.

(** A run that returns a report has posted one request per scenario and
    iteration, no more and no fewer: nothing is retried, skipped or
    batched. *)
Theorem run_benchmark_request_count {R : PRNG} (env : Env)
        (configs : list dict) (iterations : Z) (w : World)
        (report : report) (w' : World) :
  run_benchmark env configs iterations w = (Ok report, w') ->
  List.length (requests w')
    = (List.length (requests w)
       + List.length configs * Z.to_nat iterations)%nat.
Proof.
  intros E. unfold run_benchmark in E. apply bind_ok_inv in E.
  destruct E as (m & w1 & E1 & E2). injection E2 as _ <-.
  exact (posts_run_scenarios env iterations configs [] w m w1 E1).
Qed.

Lemma run_benchmark_request_count_witness :
  List.length
    (requests (snd (run_benchmark (Mock.constant 200 Mock.solved)
                      [Mock.scenario None 1 2; Mock.scenario None 4 3] 3
                      Mock.world0)))
    = (List.length (requests Mock.world0)
       + List.length [Mock.scenario None 1 2; Mock.scenario None 4 3]
         * Z.to_nat 3)%nat.
Proof.
  eapply (run_benchmark_request_count (Mock.constant 200 Mock.solved)
            [Mock.scenario None 1 2; Mock.scenario None 4 3] 3 Mock.world0).
  evaluate_sides. reflexivity.
Defined.

(* ===================================================================== *)
(** ** More on the runner: no iterations, and what follows a failure *)
(* ===================================================================== *)

Lemma scenarios_set_Forall (P : scenario_entry -> Prop) k v
      (m : scenario_map) :
  P v -> Forall (fun e => P (snd e)) m ->
  Forall (fun e => P (snd e)) (scenarios_set k v m).
Proof.
  intros Hv. induction 1 as [| [k0 v0] m Hh Ht IH]; cbn.
  - now repeat constructor.
  - destruct (key_eqb k k0); constructor; auto.
Qed.

Section NoIterations.

Context {R : PRNG}.
Variable env : Env.

Lemma silent_run_scenario_idle n scenario acc :
  n <= 0 -> silent (run_scenario env n scenario acc).
Proof.
  intros Hn. unfold run_scenario. cbv zeta.
  replace (Z.to_nat n) with 0%nat by lia. cbn [collect].
  apply silent_bind; [apply silent_print |]. intros _.
  apply silent_bind; [apply silent_lift |]. intros nv.
  apply silent_bind; [apply silent_lift |]. intros nl.
  apply silent_bind; [apply silent_print |]. intros _.
  apply silent_bind; [apply silent_ret |]. intros rs.
  apply silent_lift.
Qed.

Lemma silent_run_scenarios_idle n scenarios :
  n <= 0 -> forall acc, silent (run_scenarios env n scenarios acc).
Proof.
  intros Hn. induction scenarios as [| sc rest IH]; intros acc;
    cbn [run_scenarios].
  - apply silent_ret.
  - apply silent_bind; [now apply silent_run_scenario_idle |]. exact IH.
Qed.

Lemma run_scenario_idle n scenario acc w acc' w' :
  n <= 0 ->
  run_scenario env n scenario acc w = (Ok acc', w') ->
  exists name, acc' = scenarios_set name (mkEntry scenario []) acc.
Proof.
  intros Hn. unfold run_scenario. cbv zeta.
  replace (Z.to_nat n) with 0%nat by lia. cbn [collect].
  unfold bind, print, lift, ret, store_scenario. cbn beta iota.
  destruct (getitem (JObj scenario) "num_vehicles"); [| discriminate].
  destruct (getitem (JObj scenario) "num_locations"); [| discriminate].
  destruct (hashable _); [| discriminate].
  intros H. injection H as <- _. eauto.
Qed.

Lemma run_scenarios_idle n scenarios :
  n <= 0 ->
  forall acc w final w',
    Forall (fun e => results (snd e) = []) acc ->
    run_scenarios env n scenarios acc w = (Ok final, w') ->
    Forall (fun e => results (snd e) = []) final.
Proof.
  intros Hn. induction scenarios as [| sc rest IH];
    intros acc w final w' Hacc E; cbn [run_scenarios] in E.
  - injection E as <- _. exact Hacc.
  - apply bind_ok_inv in E. destruct E as (acc' & w1 & E1 & E2).
    apply (run_scenario_idle n sc acc w acc' w1 Hn) in E1.
    destruct E1 as (name & ->).
    refine (IH _ _ _ _ _ E2).
    apply (scenarios_set_Forall (fun e => results e = [])); auto.
Qed.

(** What the runner asks of a scenario when it runs no iteration: both
    sizes, for the line it prints, and a name, if any, that can be a
    key of the report. *)
Definition idle_ok (scenario : dict) : bool :=
  Dict.mem "num_vehicles" scenario && Dict.mem "num_locations" scenario
  && match Dict.get "name" scenario with
     | Some name => hashable name
     | None => true
     end.

Lemma run_scenario_idle_spec n scenario acc w :
  n <= 0 ->
  match fst (run_scenario env n scenario acc w) with
  | Ok _ => idle_ok scenario = true
  | Raise _ => idle_ok scenario = false
  end.
Proof.
  intros Hn. unfold run_scenario, idle_ok, Dict.get_default, Dict.mem.
  cbv zeta.
  replace (Z.to_nat n) with 0%nat by lia. cbn [collect].
  unfold bind, print, lift, ret, store_scenario, getitem. cbn beta iota.
  destruct (Dict.get "num_vehicles" scenario); [| reflexivity].
  destruct (Dict.get "num_locations" scenario); [| reflexivity].
  cbn beta iota.
  destruct (Dict.get "name" scenario) as [name |]; cbn [andb hashable];
    [destruct (hashable name) |]; reflexivity.
Qed.

Lemma run_scenarios_idle_spec n scenarios :
  n <= 0 ->
  forall acc w,
    match fst (run_scenarios env n scenarios acc w) with
    | Ok _ => forallb idle_ok scenarios = true
    | Raise _ => forallb idle_ok scenarios = false
    end.
Proof.
  intros Hn. induction scenarios as [| sc rest IH]; intros acc w;
    cbn [run_scenarios forallb]; [reflexivity |].
  pose proof (run_scenario_idle_spec n sc acc w Hn) as H1.
  unfold bind.
  destruct (run_scenario env n sc acc w) as [[acc1 | e] w1]; cbn [fst] in *.
  - rewrite H1. apply IH.
  - now rewrite H1.
Qed.

End NoIterations.



Section AfterFailure.

Context {R : PRNG}.
Variable env : Env.

(** [halts m]: of the requests [m] posts, only the last can be one that
    failed. *)
Definition halts {A} (m : M A) : Prop :=
  forall w out w',
    m w = (out, w') ->
    exists new,
      requests w' = (requests w ++ new)%list /\
      forall i p t,
        nth_error new i = Some (p, t) ->
        (S i < List.length new)%nat ->
        failure_of (service env (List.length (requests w) + i) p t) = None.

Lemma silent_halts {A} (m : M A) : silent m -> halts m.
Proof.
  intros Hm w out w' E. specialize (Hm w). rewrite E in Hm. cbn in Hm.
  exists []. split; [now rewrite app_nil_r |].
  intros i p t _ Hi. cbn in Hi. lia.
Qed.

Lemma halts_bind {A B} (m : M A) (f : A -> M B) :
  fail_fast env m -> halts m -> (forall a, halts (f a)) ->
  halts (bind m f).
Proof.
  intros Hff Hm Hf w out w' E. unfold bind in E.
  destruct (m w) as [[a | e0] w1] eqn:Em.
  - destruct (Hm w _ _ Em) as (new1 & Hr1 & H1).
    destruct (Hff w _ _ Em) as (new1' & Hr1' & F1).
    assert (new1' = new1) as ->.
    { rewrite Hr1 in Hr1'. now apply app_inv_head in Hr1'. }
    destruct (Hf a w1 _ _ E) as (new2 & Hr2 & H2).
    exists (new1 ++ new2)%list. split.
    + now rewrite Hr2, Hr1, app_assoc.
    + intros i p t Hn Hi. rewrite length_app in Hi.
      destruct (Nat.lt_ge_cases i (List.length new1)) as [Hlt | Hge].
      * rewrite nth_error_app1 in Hn by exact Hlt.
        destruct (failure_of
                    (service env (List.length (requests w) + i) p t))
          as [e |] eqn:Ef; [| reflexivity].
        specialize (F1 i p t e Hn Ef). discriminate.
      * rewrite nth_error_app2 in Hn by exact Hge.
        specialize (H2 _ p t Hn ltac:(lia)).
        rewrite Hr1, length_app in H2.
        replace (List.length (requests w) + List.length new1
                 + (i - List.length new1))%nat
          with (List.length (requests w) + i)%nat in H2 by lia.
        exact H2.
  - injection E as <- <-. exact (Hm w _ _ Em).
Qed.

Lemma halts_collect {A} (body : Z -> M A) :
  (forall i, fail_fast env (body i)) -> (forall i, halts (body i)) ->
  forall n lo, halts (collect n lo body).
Proof.
  intros Hff Hbody. induction n as [| n IH]; intros lo; cbn [collect].
  - apply silent_halts, silent_ret.
  - apply halts_bind; [apply Hff | apply Hbody |]. intros x.
    apply halts_bind;
      [apply fail_fast_collect, Hff | apply IH |].
    intros xs. apply silent_halts, silent_ret.
Qed.

Lemma halts_optimize payload timeout : halts (optimize env payload timeout).
Proof.
  intros w out w' E.
  destruct (effective_timeout payload timeout) as [t | e0] eqn:Et.
  - pose proof (optimize_requests env payload timeout t w Et) as H.
    rewrite E in H. cbn [snd] in H.
    exists [(payload, t)]. split; [exact H |].
    intros i p' t' _ Hi. cbn in Hi. lia.
  - unfold optimize in E. rewrite Et in E.
    unfold bind, lift in E. injection E as <- <-.
    exists []. split; [now rewrite app_nil_r |].
    intros i p' t' _ Hi. cbn in Hi. lia.
Qed.

Lemma halts_optimize_fleet kw : halts (optimize_fleet env kw).
Proof.
  unfold optimize_fleet.
  destruct (Dict.get "num_vehicles" kw);
    [| apply silent_halts, silent_raise].
  destruct (Dict.get "num_locations" kw);
    [| apply silent_halts, silent_raise].
  assert (Hs : silent (call_build_vrp_payload env j j0
                         (Dict.get_default "vehicle_capacity" (JInt 100) kw)
                         (Dict.get_default "time_limit" (JInt 30) kw)
                         (Dict.without optimize_fleet_parameters kw))).
  { unfold call_build_vrp_payload.
    destruct (forallb _ _);
      [apply silent_build_vrp_payload | apply silent_raise]. }
  apply halts_bind.
  - now apply silent_fail_fast.
  - now apply silent_halts.
  - intros payload. apply halts_optimize.
Qed.

Lemma halts_run_iteration scenario n i :
  halts (run_iteration env scenario n i).
Proof.
  unfold run_iteration.
  apply halts_bind;
    [apply fail_fast_optimize_fleet | apply halts_optimize_fleet |].
  intros result. apply silent_halts, silent_run_iteration_tail.
Qed.

Lemma halts_after_silent {A B} (m : M A) (f : A -> M B) :
  silent m -> (forall a, halts (f a)) -> halts (bind m f).
Proof.
  intros Hm Hf.
  apply halts_bind; [now apply silent_fail_fast | now apply silent_halts |].
  exact Hf.
Qed.

Lemma halts_run_scenario n scenario acc :
  halts (run_scenario env n scenario acc).
Proof.
  unfold run_scenario. cbv zeta.
  apply halts_after_silent; [apply silent_print |]. intros _.
  apply halts_after_silent; [apply silent_lift |]. intros nv.
  apply halts_after_silent; [apply silent_lift |]. intros nl.
  apply halts_after_silent; [apply silent_print |]. intros _.
  apply halts_bind.
  - apply fail_fast_collect. intros i. apply fail_fast_run_iteration.
  - apply halts_collect; intros i;
      [apply fail_fast_run_iteration | apply halts_run_iteration].
  - intros rs. apply silent_halts, silent_lift.
Qed.

Lemma halts_run_scenarios n scenarios :
  forall acc, halts (run_scenarios env n scenarios acc).
Proof.
  induction scenarios as [| sc rest IH]; intros acc; cbn [run_scenarios].
  - apply silent_halts, silent_ret.
  - apply halts_bind;
      [apply fail_fast_run_scenario | apply halts_run_scenario | exact IH].
Qed.

Lemma halts_run_benchmark scenarios n :
  halts (run_benchmark env scenarios n).
Proof.
  unfold run_benchmark.
  apply halts_bind;
    [apply fail_fast_run_scenarios | apply halts_run_scenarios |].
  intros m. apply silent_halts, silent_ret.
Qed.

End AfterFailure.

(** After a submission has failed, [run_benchmark] posts nothing more:
    a request of the run that failed is the last one in the log. *)
Theorem run_benchmark_stops_at_failure {R : PRNG} (env : Env)
        (configs : list dict) (iterations : Z) (w : World)
        (out : outcome report) (w' : World)
        (i : nat) (payload timeout : json) (e : exn) :
  run_benchmark env configs iterations w = (out, w') ->
  (List.length (requests w) <= i)%nat ->
  nth_error (requests w') i = Some (payload, timeout) ->
  failure_of (service env i payload timeout) = Some e ->
  S i = List.length (requests w').
Proof.
  intros E Hi Hn Hf.
  destruct (halts_run_benchmark env configs iterations w _ _ E)
    as (new & Hr & H).
  assert (Hlt : (i < List.length (requests w'))%nat).
  { apply nth_error_Some. congruence. }
  rewrite Hr in Hn, Hlt |- *. rewrite length_app in Hlt |- *.
  rewrite nth_error_app2 in Hn by exact Hi.
  destruct (Nat.lt_ge_cases (S (i - List.length (requests w)))
              (List.length new)) as [Hmore | Hlast]; [| lia].
  specialize (H _ payload timeout Hn Hmore).
  replace (List.length (requests w) + (i - List.length (requests w)))%nat
    with i in H by lia.
  congruence.
Qed.

Lemma run_benchmark_stops_at_failure_witness :
  2%nat = List.length
            (requests (snd (run_benchmark (Mock.failing_at 1 Mock.solved)
                              [Mock.scenario None 1 2] 3 Mock.world0))).
Proof.
  eapply (run_benchmark_stops_at_failure (Mock.failing_at 1 Mock.solved)
            [Mock.scenario None 1 2] 3 Mock.world0
            (fst (run_benchmark (Mock.failing_at 1 Mock.solved)
                    [Mock.scenario None 1 2] 3 Mock.world0))
            (snd (run_benchmark (Mock.failing_at 1 Mock.solved)
                    [Mock.scenario None 1 2] 3 Mock.world0))
            1%nat).
  - evaluate_sides. reflexivity.
  - cbn. lia.
  - evaluate_lhs. reflexivity.
  - reflexivity.
Defined.

(* ===================================================================== *)
(** ** Task locations and the matrix *)
(* ===================================================================== *)

Lemma zrange_In lo n x : In x (zrange lo n) -> lo <= x < lo + Z.of_nat n.
Proof.
  intros H. apply In_nth_error in H. destruct H as [k Hk].
  pose proof (zrange_nth lo n k x Hk) as ->.
  assert (k < List.length (zrange lo n))%nat
    by (apply nth_error_Some; congruence).
  rewrite zrange_length in *. lia.
Qed.


(* ===================================================================== *)
(** ** More on the EV fleet problem *)
(* ===================================================================== *)

Section EvPayload.

Context {R : PRNG}.
Variable env : Env.

Lemma returns_matrix_loop lo hi n :
  lo <= hi ->
  returns
    (collect n 0
       (fun i =>
          collect n 0 (fun j => if Z.eqb i j then ret 0 else randint lo hi)))
    (fun m =>
       List.length m = n /\
       forall i row, nth_error m i = Some row ->
         List.length row = n /\
         forall j x, nth_error row j = Some x ->
           if Nat.eqb i j then x = 0 else lo <= x <= hi).
Proof.
  intros Hle. eapply returns_weaken.
  - apply (returns_collect _
             (fun i row =>
                List.length row = n /\
                forall j x, nth_error row j = Some x ->
                  if Z.eqb i (0 + Z.of_nat j) then x = 0
                  else lo <= x <= hi)).
    intros i.
    apply (returns_collect _
             (fun j x => if Z.eqb i j then x = 0 else lo <= x <= hi)).
    intros j. destruct (Z.eqb i j);
      [now apply returns_ret | now apply returns_randint].
  - intros m [Hlen Hnth]. split; [exact Hlen |].
    intros i row Hrow. destruct (Hnth i row Hrow) as [Hl Hc].
    split; [exact Hl |]. intros j x Hx. specialize (Hc j x Hx).
    destruct (Nat.eqb_spec i j) as [-> | Hne].
    + now rewrite Z.eqb_refl in Hc.
    + destruct (Z.eqb_spec (0 + Z.of_nat i) (0 + Z.of_nat j));
        [lia | exact Hc].
Qed.

Lemma returns_draw_list n lo hi :
  lo <= hi ->
  returns (collect n 0 (fun _ => randint lo hi))
    (fun ds => List.length ds = n /\ Forall (fun d => lo <= d <= hi) ds).
Proof.
  intros Hle. eapply returns_weaken.
  - apply (returns_collect _ (fun _ d => lo <= d <= hi)).
    intros _. now apply returns_randint.
  - intros ds [Hlen Hnth]. split; [exact Hlen |].
    apply Forall_forall. intros d Hin.
    apply In_nth_error in Hin. destruct Hin as [k Hk].
    exact (Hnth k d Hk).
Qed.

(** Everything [generate_ev_fleet_problem] puts in the payload. *)
Definition ev_payload_ok (nv nd ncs : Z) (payload : json) : Prop :=
  exists cm ds ss,
    (List.length cm = Z.to_nat (1 + nd + ncs) /\
     forall i row, nth_error cm i = Some row ->
       List.length row = Z.to_nat (1 + nd + ncs) /\
       forall j x, nth_error row j = Some x ->
         if Nat.eqb i j then x = 0 else 3 <= x <= 15) /\
    (List.length ds = Z.to_nat nd /\ Forall (fun d => 1 <= d <= 10) ds) /\
    (List.length ss = Z.to_nat nd /\ Forall (fun d => 5 <= d <= 15) ss) /\
    cost_matrix_of payload = Some (jmatrix cm) /\
    field "fleet_data" "vehicle_locations" payload
      = Some (JArr (repeat (jints [0; 0]) (Z.to_nat nv))) /\
    field "fleet_data" "capacities" payload
      = Some (JArr [JArr (repeat (JInt 50) (Z.to_nat nv))]) /\
    field "fleet_data" "vehicle_time_windows" payload
      = Some (JArr (repeat (jints [480; 1080]) (Z.to_nat nv))) /\
    field "task_data" "task_locations" payload
      = Some (jints (zrange 1 (Z.to_nat nd))) /\
    field "task_data" "demand" payload = Some (JArr [jints ds]) /\
    field "task_data" "service_times" payload = Some (jints ss) /\
    field "solver_config" "time_limit" payload = Some (JInt 30).

Lemma returns_ev_payload nv nd ncs bc avg :
  returns (EvFleet.generate_ev_fleet_problem env nv nd ncs bc avg)
          (ev_payload_ok nv nd ncs).
Proof.
  unfold EvFleet.generate_ev_fleet_problem.
  eapply returns_bind; [apply returns_time |]. intros t _.
  eapply returns_bind; [apply returns_seed |]. intros _ _.
  eapply returns_bind; [apply (returns_matrix_loop 3 15); lia |].
  intros cm Hcm.
  eapply returns_bind; [apply (returns_draw_list _ 1 10); lia |].
  intros ds Hds.
  eapply returns_bind; [apply (returns_draw_list _ 5 15); lia |].
  intros ss Hss.
  eapply returns_bind.
  { apply (returns_collect _ (fun _ _ => True)). intros i.
    eapply returns_weaken; [apply returns_time_window | auto]. }
  intros tws _. apply returns_ret.
  exists cm, ds, ss. split; [exact Hcm |]. split; [exact Hds |].
  split; [exact Hss |].
  replace (nd + 1 - 1) with nd by lia.
  repeat split.
Qed.

Lemma silent_generate_ev_fleet_problem nv nd ncs bc avg :
  silent (EvFleet.generate_ev_fleet_problem env nv nd ncs bc avg).
Proof.
  unfold EvFleet.generate_ev_fleet_problem, EvFleet.time_window.
  repeat first
    [ apply silent_ret | apply silent_time | apply silent_seed
    | apply silent_randint
    | apply silent_collect; intros ?
    | apply silent_bind; [| intros ?]
    | progress cbv beta zeta
    | match goal with
      | |- silent (if ?b then _ else _) => destruct b
      end ].
Qed.

End EvPayload.




(* ===================================================================== *)
(** ** The use-case chart: where the bars go *)
(* ===================================================================== *)

(** [create_use_case_comparison] of [benchmarks/generate_charts.py]
    works out the position, height, colour and label of every bar before
    it draws them.  That computation is embedded here; the calls to
    matplotlib around it are not.  Positions are Python numbers ([0],
    [1], ... as ints, floats once a gap of [0.5] has been added): they
    are embedded by value, as rationals, which they are exactly.
    Heights are floats, embedded as rationals like the clock readings
    above: the rounding of a quotient is not part of the model, its
    overflow is. *)

Module Charts.

Import Ascii.

Definition and_then {A B} (o : outcome A) (f : A -> outcome B) : outcome B :=
  match o with
  | Ok a => f a
  | Raise e => Raise e
  end.

Notation "x <~ o ;; k" := (and_then o (fun x => k))
  (at level 61, o at next level, right associativity).

Definition NVIDIA_GREEN : string := "#76B900".
Definition OCI_BLUE : string := "#0078D4".
Definition ORACLE_RED : string := "#C74634".

(** A dict literal: its items come in the order they are written in. *)
Definition categories : list (string * list string) :=
  [ ("Last-Mile Delivery",
      ["LastMile-Small"; "LastMile-Medium"; "LastMile-Large"]);
    ("EV Charging",
      ["Charging-Small"; "Charging-Medium"; "Charging-Large"]);
    ("Fleet Dispatch",
      ["Dispatch-Realtime"; "Dispatch-Batch"]) ].

Definition colors : list string := [NVIDIA_GREEN; OCI_BLUE; ORACLE_RED].

(** [s.replace(old, new)], for [old] and [new] of one character each. *)
Fixpoint replace (old new : ascii) (s : string) : string :=
  match s with
  | EmptyString => EmptyString
  | String c rest =>
      String (if Ascii.eqb c old then new else c) (replace old new rest)
  end.

(** [scenario.replace('-', '\n')] *)
Definition label_of (scenario : string) : string :=
  replace "-"%char "010"%char scenario.

(** [s in container]: a key of a dict, an element of a list, a
    substring of a string; anything else is not iterable. *)
Definition contains (container : json) (s : string) : outcome bool :=
  match container with
  | JObj d => Ok (Dict.mem s d)
  | JArr l =>
      Ok (existsb (fun v => match v with
                            | JStr t => String.eqb s t
                            | _ => false
                            end) l)
  | JStr t =>
      Ok (match String.index 0 s t with
          | Some _ => true
          | None => false
          end)
  | _ => Raise TypeError
  end.

(** The least magnitude of an int whose quotient by 1000 is too large
    for a float: the quotient is rounded to the nearest float, and from
    the midpoint of the largest float, [2^1024 - 2^971], and [2^1024] on
    it rounds out of range. *)
Definition too_large : Z := 1000 * (2 ^ 1024 - 2 ^ 970).

(** [v / 1000]: an int (or a bool, which is one) is divided exactly and
    then rounded, which overflows on a large one; a float is divided as
    a float, which never raises. *)
Definition div_1000 (v : json) : outcome Q :=
  match v with
  | JInt z =>
      if Z.abs z <? too_large then Ok (inject_Z z / 1000)%Q
      else Raise OverflowError
  | JBool b => Ok (inject_Z (Z.b2z b) / 1000)%Q
  | JFloat q => Ok (q / 1000)%Q
  | _ => Raise TypeError
  end.

(** The local variables of the loop. *)
Record layout : Type := mkLayout {
  x_positions : list Q;
  heights : list Q;
  bar_colors : list string;
  labels : list string;
  vehicles_list : list json;
  pos : Q;
  group_positions : list Q
}.

Definition start : layout := mkLayout [] [] [] [] [] 0 [].

(** The body of the inner loop.  The source appends to [x_positions]
    before it reads the entry; when the reading raises, the lists are
    lost with the call, so the order does not show. *)
Definition add_bar (use_case_data : json) (i : nat) (scenario : string)
           (l : layout) : outcome layout :=
  present <~ contains use_case_data scenario ;;
  if (present : bool) then
    entry <~ getitem use_case_data scenario ;;
    ms <~ getitem entry "avg_response_ms" ;;
    height <~ div_1000 ms ;;
    entry <~ getitem use_case_data scenario ;;
    vehicles <~ getitem entry "vehicles" ;;
    Ok (mkLayout (x_positions l ++ [pos l])
                 (heights l ++ [height])
                 (bar_colors l ++ [nth i colors ""])
                 (labels l ++ [label_of scenario])
                 (vehicles_list l ++ [vehicles])
                 (pos l + 1)%Q
                 (group_positions l))
  else Ok l.

Fixpoint add_bars (use_case_data : json) (i : nat) (scenarios : list string)
         (l : layout) : outcome layout :=
  match scenarios with
  | [] => Ok l
  | scenario :: rest =>
      l <~ add_bar use_case_data i scenario l ;;
      add_bars use_case_data i rest l
  end.

(** The body of the outer loop. *)
Definition add_group (use_case_data : json) (i : nat)
           (scenarios : list string) (l : layout) : outcome layout :=
  let group_start := pos l in
  l <~ add_bars use_case_data i scenarios l ;;
  Ok (mkLayout (x_positions l) (heights l) (bar_colors l) (labels l)
               (vehicles_list l)
               (pos l + (1 # 2))%Q
               (group_positions l ++ [((group_start + pos l - 1) / 2)%Q])).

(** [for i, (category, scenarios) in enumerate(categories.items())] *)
Fixpoint add_groups (use_case_data : json) (i : nat)
         (groups : list (string * list string)) (l : layout)
  : outcome layout :=
  match groups with
  | [] => Ok l
  | (_, scenarios) :: rest =>
      l <~ add_group use_case_data i scenarios l ;;
      add_groups use_case_data (S i) rest l
  end.

(** [create_use_case_comparison], from the reading of the results to
    the end of the loop over the groups. *)
Definition use_case_layout (data : json) : outcome layout :=
  use_case_data <~ getitem data "use_case_results" ;;
  add_groups use_case_data 0 categories start.

(** The scenarios the chart knows, in the order of the groups. *)
Definition known_scenarios : list string := flat_map snd categories.

(** The five lists that are handed to matplotlib side by side. *)
Definition parallel (l : layout) : Prop :=
  List.length (x_positions l) = List.length (labels l) /\
  List.length (heights l) = List.length (labels l) /\
  List.length (bar_colors l) = List.length (labels l) /\
  List.length (vehicles_list l) = List.length (labels l).

(** Later positions lie at least one unit to the right of earlier ones. *)
Definition spaced (xs : list Q) : Prop :=
  forall i j a b,
    (i < j)%nat -> nth_error xs i = Some a -> nth_error xs j = Some b ->
    (a + 1 <= b)%Q.

Definition tidy (l : layout) : Prop :=
  spaced (x_positions l) /\
  (forall x, In x (x_positions l) -> (0 <= x /\ x + 1 <= pos l)%Q) /\
  (0 <= pos l)%Q.

(** A value that can be divided by 1000: a float, a bool, or an int
    that is not too large. *)
Definition divisible (v : json) : bool :=
  match v with
  | JInt z => Z.abs z <? too_large
  | JBool _ | JFloat _ => true
  | _ => false
  end.

(** What an entry of the results must look like for its bar. *)
Definition entry_complete (d : dict) (scenario : string) : bool :=
  match Dict.get scenario d with
  | None => true
  | Some (JObj e) =>
      match Dict.get "avg_response_ms" e with
      | Some ms => divisible ms && Dict.mem "vehicles" e
      | None => false
      end
  | Some _ => false
  end.

Lemma add_bar_inv data i s l l' :
  add_bar data i s l = Ok l' ->
  (contains data s = Ok false /\ l' = l) \/
  (contains data s = Ok true /\
   exists h v,
     l' = mkLayout (x_positions l ++ [pos l]) (heights l ++ [h])
                   (bar_colors l ++ [nth i colors ""])
                   (labels l ++ [label_of s]) (vehicles_list l ++ [v])
                   (pos l + 1)%Q (group_positions l)).
Proof.
  unfold add_bar, and_then.
  destruct (contains data s) as [[|] | e]; [| | discriminate].
  - destruct (getitem data s) as [entry | e]; [| discriminate].
    destruct (getitem entry "avg_response_ms") as [ms | e]; [| discriminate].
    destruct (div_1000 ms) as [h | e]; [| discriminate].
    destruct (getitem entry "vehicles") as [v | e]; [| discriminate].
    intros [= <-]. right. split; [reflexivity |]. now exists h, v.
  - intros [= <-]. now left.
Qed.

Lemma spaced_snoc xs p :
  spaced xs -> (forall x, In x xs -> (x + 1 <= p)%Q) -> spaced (xs ++ [p]).
Proof.
  intros Hs Hp i j a b Hij Ha Hb.
  assert (Hj : (j < List.length (xs ++ [p]))%nat)
    by (apply nth_error_Some; congruence).
  rewrite length_app in Hj. cbn in Hj.
  assert (Hi : nth_error xs i = Some a)
    by (rewrite nth_error_app1 in Ha by lia; exact Ha).
  destruct (Nat.eq_dec j (List.length xs)) as [-> | Hne].
  - rewrite nth_error_app2, Nat.sub_diag in Hb by lia.
    injection Hb as <-. apply Hp. eapply nth_error_In, Hi.
  - rewrite nth_error_app1 in Hb by lia. exact (Hs i j a b Hij Hi Hb).
Qed.

Lemma parallel_add_bar data i s l l' :
  add_bar data i s l = Ok l' -> parallel l -> parallel l'.
Proof.
  intros E (H1 & H2 & H3 & H4).
  destruct (add_bar_inv _ _ _ _ _ E) as [[_ ->] | [_ (h & v & ->)]];
    [now repeat split |].
  unfold parallel. cbn. rewrite !length_app. cbn. lia.
Qed.

Lemma tidy_add_bar data i s l l' :
  add_bar data i s l = Ok l' -> tidy l -> tidy l'.
Proof.
  intros E (Hs & Hb & Hp).
  destruct (add_bar_inv _ _ _ _ _ E) as [[_ ->] | [_ (h & v & ->)]];
    [exact (conj Hs (conj Hb Hp)) |].
  unfold tidy. cbn. split; [| split].
  - apply spaced_snoc; [exact Hs |]. intros x Hx. now apply Hb.
  - intros x Hx. apply in_app_or in Hx. destruct Hx as [Hx | [<- | []]].
    + destruct (Hb x Hx). split; lra.
    + split; lra.
  - lra.
Qed.

Lemma groups_add_bar data i s l l' :
  add_bar data i s l = Ok l' -> group_positions l' = group_positions l.
Proof.
  intros E.
  now destruct (add_bar_inv _ _ _ _ _ E) as [[_ ->] | [_ (h & v & ->)]].
Qed.

Lemma labels_add_bar d i s l l' :
  add_bar (JObj d) i s l = Ok l' ->
  labels l' = (labels l ++ map label_of (filter (fun s => Dict.mem s d) [s]))%list.
Proof.
  intros E. cbn [filter].
  destruct (add_bar_inv _ _ _ _ _ E) as [[C ->] | [C (h & v & ->)]];
    cbn in C; injection C as ->; cbn; [now rewrite app_nil_r | reflexivity].
Qed.

(** The exceptions the loop can end with. *)
Definition layout_error (e : exn) : Prop :=
  e = KeyError \/ e = TypeError \/ e = OverflowError.

Lemma add_bar_spec d i s l :
  match add_bar (JObj d) i s l with
  | Ok _ => entry_complete d s = true
  | Raise e => entry_complete d s = false /\ layout_error e
  end.
Proof.
  unfold add_bar, entry_complete, and_then, contains, getitem, div_1000,
    divisible, layout_error, Dict.mem.
  destruct (Dict.get s d) as [[| | | | | | e] |]; cbn [andb]; auto.
  destruct (Dict.get "avg_response_ms" e) as [ms |]; auto.
  destruct ms as [| b | z | q | t | xs | kv]; cbn [andb]; auto.
  - destruct (Dict.get "vehicles" e); auto.
  - destruct (Z.abs z <? too_large); cbn [andb]; auto.
    destruct (Dict.get "vehicles" e); auto.
  - destruct (Dict.get "vehicles" e); auto.
Qed.

Lemma add_bars_inv data i ss :
  forall l l',
    add_bars data i ss l = Ok l' ->
    (parallel l -> parallel l') /\ (tidy l -> tidy l') /\
    group_positions l' = group_positions l.
Proof.
  induction ss as [| s ss IH]; intros l l' E; cbn [add_bars] in E.
  - injection E as <-. auto.
  - unfold and_then in E.
    destruct (add_bar data i s l) as [l1 | e] eqn:E1; [| discriminate].
    destruct (IH _ _ E) as (Hp & Ht & Hg).
    split; [| split].
    + intros H. eapply Hp, parallel_add_bar; eauto.
    + intros H. eapply Ht, tidy_add_bar; eauto.
    + rewrite Hg. eapply groups_add_bar; eauto.
Qed.

Lemma labels_add_bars d i ss :
  forall l l',
    add_bars (JObj d) i ss l = Ok l' ->
    labels l'
      = (labels l ++ map label_of (filter (fun s => Dict.mem s d) ss))%list.
Proof.
  induction ss as [| s ss IH]; intros l l' E; cbn [add_bars] in E.
  - injection E as <-. cbn. now rewrite app_nil_r.
  - unfold and_then in E.
    destruct (add_bar (JObj d) i s l) as [l1 | e] eqn:E1; [| discriminate].
    rewrite (IH _ _ E), (labels_add_bar _ _ _ _ _ E1).
    rewrite <- app_assoc, <- map_app. f_equal. f_equal.
    cbn. now destruct (Dict.mem s d).
Qed.

Lemma add_bars_spec d i ss :
  forall l,
    match add_bars (JObj d) i ss l with
    | Ok _ => forallb (entry_complete d) ss = true
    | Raise e =>
        forallb (entry_complete d) ss = false /\ layout_error e
    end.
Proof.
  induction ss as [| s ss IH]; intros l; cbn [add_bars forallb];
    [reflexivity |].
  unfold and_then.
  pose proof (add_bar_spec d i s l) as H1.
  destruct (add_bar (JObj d) i s l) as [l1 | e].
  - rewrite H1. cbn. apply IH.
  - destruct H1 as [-> He]. now split.
Qed.

Lemma add_group_inv data i ss l l' :
  add_group data i ss l = Ok l' ->
  (parallel l -> parallel l') /\ (tidy l -> tidy l') /\
  List.length (group_positions l') = S (List.length (group_positions l)).
Proof.
  unfold add_group, and_then.
  destruct (add_bars data i ss l) as [l1 | e] eqn:E1; [| discriminate].
  intros [= <-]. destruct (add_bars_inv _ _ _ _ _ E1) as (Hp & Ht & Hg).
  split; [| split].
  - intros H. exact (Hp H).
  - intros H. destruct (Ht H) as (Hs & Hb & H0).
    unfold tidy. cbn. split; [exact Hs |]. split; [| lra].
    intros x Hx. destruct (Hb x Hx). split; lra.
  - cbn. rewrite length_app, Hg. cbn. lia.
Qed.

Lemma add_groups_inv data groups :
  forall i l l',
    add_groups data i groups l = Ok l' ->
    (parallel l -> parallel l') /\ (tidy l -> tidy l') /\
    List.length (group_positions l')
      = (List.length (group_positions l) + List.length groups)%nat.
Proof.
  induction groups as [| [c ss] groups IH]; intros i l l' E;
    cbn [add_groups] in E.
  - injection E as <-. cbn. split; [auto | split; [auto | lia]].
  - unfold and_then in E.
    destruct (add_group data i ss l) as [l1 | e] eqn:E1; [| discriminate].
    destruct (add_group_inv _ _ _ _ _ E1) as (Hp1 & Ht1 & Hg1).
    destruct (IH _ _ _ E) as (Hp & Ht & Hg).
    split; [| split]; [auto | auto |]. rewrite Hg, Hg1. cbn. lia.
Qed.

Lemma labels_add_groups d groups :
  forall i l l',
    add_groups (JObj d) i groups l = Ok l' ->
    labels l'
      = (labels l
         ++ map label_of
              (filter (fun s => Dict.mem s d) (flat_map snd groups)))%list.
Proof.
  induction groups as [| [c ss] groups IH]; intros i l l' E;
    cbn [add_groups] in E.
  - injection E as <-. cbn. now rewrite app_nil_r.
  - unfold and_then in E.
    destruct (add_group (JObj d) i ss l) as [l1 | e] eqn:E1; [| discriminate].
    rewrite (IH _ _ _ E). cbn [flat_map snd].
    rewrite filter_app, map_app, app_assoc. f_equal.
    unfold add_group, and_then in E1.
    destruct (add_bars (JObj d) i ss l) as [l2 | e] eqn:E2; [| discriminate].
    injection E1 as <-. cbn. exact (labels_add_bars _ _ _ _ _ E2).
Qed.

Lemma add_groups_spec d groups :
  forall i l,
    match add_groups (JObj d) i groups l with
    | Ok _ => forallb (entry_complete d) (flat_map snd groups) = true
    | Raise e =>
        forallb (entry_complete d) (flat_map snd groups) = false /\
        layout_error e
    end.
Proof.
  induction groups as [| [c ss] groups IH]; intros i l;
    cbn [add_groups flat_map snd]; [reflexivity |].
  rewrite forallb_app. unfold and_then, add_group, and_then.
  pose proof (add_bars_spec d i ss l) as H1.
  destruct (add_bars (JObj d) i ss l) as [l1 | e].
  - rewrite H1. cbn. apply IH.
  - destruct H1 as [-> He]. now split.
Qed.

Lemma tidy_start : tidy start.
Proof.
  unfold tidy, start. cbn. split; [| split; [intros x [] | lra]].
  intros i j a b _ Ha. now destruct i.
Qed.

End Charts.

(** Results with two scenarios of the chart, not in its order, and one
    that the chart does not know. *)
Definition sample_use_case_results : dict :=
  [ ("Dispatch-Batch",
      JObj [("avg_response_ms", JInt 42000); ("vehicles", JInt 80)]);
    ("Nightly", JNull);
    ("LastMile-Small",
      JObj [("vehicles", JInt 10); ("avg_response_ms", JFloat (3001 # 2))]) ].

Definition sample_data : json :=
  JObj [ ("fleet_scaling_results", JObj []);
         ("use_case_results", JObj sample_use_case_results) ].

Definition sample_layout : Charts.layout :=
  Eval vm_compute in
    match Charts.use_case_layout sample_data with
    | Ok l => l
    | Raise _ => Charts.start
    end.



(** Whatever the results are, the bars stand at positions that are not
    negative, and each bar stands at least one unit to the right of
    every bar before it: drawn 0.8 wide, no two bars overlap. *)
Theorem use_case_layout_spacing (data : json) (l : Charts.layout) :
  Charts.use_case_layout data = Ok l ->
  (forall x, In x (Charts.x_positions l) -> (0 <= x)%Q) /\
  forall i j a b,
    (i < j)%nat ->
    nth_error (Charts.x_positions l) i = Some a ->
    nth_error (Charts.x_positions l) j = Some b ->
    (a + 1 <= b)%Q.
Proof.
  intros E. unfold Charts.use_case_layout, Charts.and_then in E.
  destruct (getitem data "use_case_results") as [d | e]; [| discriminate].
  destruct (Charts.add_groups_inv _ _ _ _ _ E) as (_ & Ht & _).
  destruct (Ht Charts.tidy_start) as (Hs & Hb & _).
  split; [| exact Hs]. intros x Hx. now destruct (Hb x Hx).
Qed.

Lemma use_case_layout_spacing_witness :
  Charts.x_positions sample_layout = [0%Q; (0 + 1 + (1 # 2) + (1 # 2))%Q] /\
  (0 + 1 <= 0 + 1 + (1 # 2) + (1 # 2))%Q.
Proof.
  split; [reflexivity |].
  exact (proj2 (use_case_layout_spacing sample_data sample_layout eq_refl)
               0%nat 1%nat _ _ (Nat.lt_0_succ 0) eq_refl eq_refl).
Defined.

(** The layout is worked out exactly when every scenario of the chart
    that is a key of the results has a dict for its entry, with a value
    under avg_response_ms that can be divided by 1000 (a float, a bool,
    or an int that is not too large for the quotient to be a float) and
    some value under vehicles.  Otherwise the function raises KeyError,
    TypeError or OverflowError, and no chart is drawn. *)
Theorem use_case_layout_returns (data : json) (results : dict) :
  getitem data "use_case_results" = Ok (JObj results) ->
  ((exists l, Charts.use_case_layout data = Ok l) <->
   forallb (Charts.entry_complete results) Charts.known_scenarios = true) /\
  (forall e, Charts.use_case_layout data = Raise e ->
             e = KeyError \/ e = TypeError \/ e = OverflowError).
Proof.
  intros Hd. unfold Charts.use_case_layout, Charts.and_then.
  rewrite Hd.
  pose proof (Charts.add_groups_spec results Charts.categories 0
                Charts.start) as H.
  fold Charts.known_scenarios in H.
  destruct (Charts.add_groups (JObj results) 0 Charts.categories
              Charts.start) as [l | e].
  - split; [| discriminate]. split; [intros _; exact H | eauto].
  - destruct H as [Hf He]. split.
    + split; [intros [l [=]] | rewrite Hf; discriminate].
    + intros e' [= <-]. exact He.
Qed.

Lemma use_case_layout_returns_witness :
  exists l, Charts.use_case_layout sample_data = Ok l.
Proof.
  destruct (use_case_layout_returns sample_data sample_use_case_results
              eq_refl) as [H _].
  apply H. reflexivity.
Defined.

(** An int too large for a float, as [json.load] reads it from a long
    enough numeral, stops the chart with [OverflowError]. *)
Lemma use_case_layout_overflow :
  Charts.use_case_layout
    (JObj [("use_case_results",
             JObj [("LastMile-Small",
                     JObj [ ("avg_response_ms", JInt (10 ^ 400));
                            ("vehicles", JInt 10) ])])])
    = Raise OverflowError.
Proof. vm_compute. reflexivity. Qed.
